(** * Deep-MRI-Reconstruction: the 2-D training script [main_2d.py]

    A shallow embedding of the data pipeline and of the epoch loop of
    [main_2d.py], with the properties its specification states about them.

    Conventions of the embedding.
    - Python integers are [Z]; [len] of a list is [Z.of_nat (length l)].
    - A numpy array of rank 3 is a list of lists of lists; a batch of images
      is a list of 2-D images.
    - Floating-point scalars carried around but never computed on (pixel
      values) are an abstract type.  Losses and PSNR values, which the loop
      adds and divides, are idealised as rationals [Q].
    - A raised exception is the left injection of [result].
    - The numpy random generator is a state [G] threaded through every
      function that draws from it. *)

From Stdlib Require Import String ZArith QArith List Bool Lia Permutation.
From Stdlib Require Import Floats.SpecFloat.
Import ListNotations.

Set Implicit Arguments.

Local Open Scope Z_scope.

(** ** Python primitives *)

Module Py.

Inductive exn : Type :=
| ZeroDivisionError
| IndexError
| UnboundLocalError (name : string)
| ValueError (msg : string).

(** [inl e]: the exception [e] was raised; [inr v]: normal completion. *)
Definition result (A : Type) : Type := (exn + A)%type.

(** [xrange(start, stop, step)] for a positive step: the loop of the
    iterator, bounded by [fuel]. *)
Fixpoint xrange_up (fuel : nat) (i stop step : Z) : list Z :=
  match fuel with
  | O => []
  | S fuel' =>
      if i <? stop then i :: xrange_up fuel' (i + step) stop step else []
  end.

(** The same for a negative step. *)
Fixpoint xrange_down (fuel : nat) (i stop step : Z) : list Z :=
  match fuel with
  | O => []
  | S fuel' =>
      if stop <? i then i :: xrange_down fuel' (i + step) stop step else []
  end.

(** [xrange(start, stop, step)]; a zero step raises [ValueError].  Every
    iteration moves [i] by at least one towards [stop], so [|stop - start|]
    iterations are enough. *)
Definition xrange (start stop step : Z) : result (list Z) :=
  if step =? 0 then inl (ValueError "xrange() arg 3 must not be zero")
  else if 0 <? step
       then inr (xrange_up (Z.to_nat (stop - start)) start stop step)
       else inr (xrange_down (Z.to_nat (start - stop)) start stop step).

(** A slice bound clamped into [0 .. len], negative bounds counting from
    the end. *)
Definition clamp_index (len : nat) (i : Z) : nat :=
  if i <? 0 then Z.to_nat (Z.max 0 (Z.of_nat len + i))
  else Nat.min len (Z.to_nat i).

(** [l[i:j]] *)
Definition slice (A : Type) (l : list A) (i j : Z) : list A :=
  let lo := clamp_index (length l) i in
  let hi := clamp_index (length l) j in
  firstn (hi - lo) (skipn lo l).

(** Truth value of a Python float: [x != 0.0]. *)
Definition float_bool (x : spec_float) : bool :=
  match SFcompare x (S754_zero false) with
  | Some Eq => false
  | _ => true
  end.

(** [x == 0] on floats. *)
Definition float_eq_zero (x : spec_float) : bool :=
  SFeqb x (S754_zero false).

End Py.

(** ** Minibatching: [iterate_minibatch] *)

Section Minibatch.

Variable A : Type.
(** State of the numpy random generator. *)
Variable G : Type.
(** [np.random.permutation]: a reordered copy and the advanced state. *)
Variable np_random_permutation : G -> list A -> list A * G.

(** The generator is consumed to the end by each of its callers, so it is
    modelled by the list of the batches it yields. *)
Definition iterate_minibatch (g : G) (data : list A) (batch_size : Z)
           (shuffle : bool) : Py.result (list (list A)) * G :=
  let n := Z.of_nat (length data) in
  let '(data', g') :=
    if shuffle then np_random_permutation g data else (data, g) in
  match Py.xrange 0 n batch_size with
  | inl e => (inl e, g')
  | inr idx =>
      (inr (map (fun i => Py.slice data' i (i + batch_size)) idx), g')
  end.

End Minibatch.

(** ** Format adapter: [to_lasagne_format] and [from_lasagne_format]

    The two functions live in [cascadenet.util.helpers], which [main_2d.py]
    imports.  A complex scalar is the pair of its real and imaginary parts
    over an arbitrary scalar type [R]; a network tensor of shape
    [(batch, 2, Nx, Ny)] is a list (batch) of lists (channels) of planes. *)

Section Adapter.

Variable R : Type.

Definition complex : Type := (R * R)%type.
Definition image : Type := list (list complex).
Definition plane : Type := list (list R).
Definition tensor : Type := list (list plane).

(** Modelled from the spec: [to_lasagne_format(x)] of
    [cascadenet.util.helpers] is missing; the forward conversion stacks the
    real and the imaginary parts of each image as channels 0 and 1. *)
Definition to_lasagne_format (x : list image) : tensor :=
  map (fun im => [map (map fst) im; map (map snd) im]) x.

(** Rebuilds a complex plane from its real and imaginary planes. *)
Definition join_planes (re im : plane) : image :=
  map (fun rows => combine (fst rows) (snd rows)) (combine re im).

(** Modelled from the spec: [from_lasagne_format(x)] of
    [cascadenet.util.helpers] is missing; the inverse conversion reads
    channel 0 as the real part and channel 1 as the imaginary part. *)
Definition from_lasagne_format (t : tensor) : list image :=
  map (fun chans => join_planes (nth 0%nat chans []) (nth 1%nat chans [])) t.

(** Modelled from the spec: [to_lasagne_format(x, mask=True)] is missing;
    a real mask is replicated into both channels. *)
Definition to_lasagne_format_mask (m : list plane) : tensor :=
  map (fun p => [p; p]) m.

(** Modelled from the spec: [from_lasagne_format(x, mask=True)] is missing;
    channel 0 is kept and the duplicate is discarded. *)
Definition from_lasagne_format_mask (t : tensor) : list plane :=
  map (fun chans => nth 0%nat chans []) t.

End Adapter.

(** ** Mask generator: [cs.cartesian_mask]

    The generator lives in [utils.compressed_sensing].  Lines of k-space are
    indexed along the first spatial axis.  In centred order the zero
    frequency sits at index [Nx / 2]; in unshifted order it sits at index 0,
    as the discrete transform has it. *)

Section MaskGenerator.

Variable G : Type.
(** The random draw of the generator: [line_draw g ivar Nx j] tells whether
    the Gaussian-shaped draw made in state [g] retains line [j] (centred
    order) of an [Nx]-line image. *)
Variable line_draw : G -> spec_float -> nat -> nat -> bool.
(** Which of the candidate high-frequency lines the draw includes. *)
Variable high_pick : G -> nat -> nat -> bool.
(** The generator state after the draws of one batch element. *)
Variable rng_advance : G -> G.

(** Signed frequency of index [j] in centred order. *)
Definition centred_freq (Nx j : nat) : Z :=
  Z.of_nat j - Z.of_nat (Nx / 2).

(** Signed frequency of index [i] in unshifted order. *)
Definition fft_freq (Nx i : nat) : Z :=
  if (i <? (Nx + 1) / 2)%nat then Z.of_nat i else Z.of_nat i - Z.of_nat Nx.

Definition line_freq (centred : bool) (Nx i : nat) : Z :=
  if centred then centred_freq Nx i else fft_freq Nx i.

(** The window of [k] frequencies around zero: the [k] lowest ones. *)
Definition low_band (k : nat) (f : Z) : bool :=
  (- Z.of_nat (k / 2) <=? f) && (f <? Z.of_nat k - Z.of_nat (k / 2)).

(** The [k] outermost lines of an [Nx]-line image in centred order. *)
Definition edge_band (Nx k j : nat) : bool :=
  (j <? k - k / 2)%nat || (Nx - k / 2 <=? j)%nat.

(** [np.fft.ifftshift] along one axis: index [i] of the result is index
    [(i + n / 2) mod n] of the argument. *)
Definition ifftshift (X : Type) (l : list X) : list X :=
  skipn (length l / 2) l ++ firstn (length l / 2) l.

(** Modelled from the spec: the line decisions of one batch element, in
    centred order.  A line is kept when the centre policy forces it, when
    the high-frequency policy picks it, or when the random draw keeps it. *)
Definition line_mask_centred (g : G) (ivar : spec_float) (Nx : nat)
           (sample_high_freq sample_centre : bool) (sample_n : nat)
  : list Z :=
  map (fun j =>
         if (sample_centre && low_band sample_n (centred_freq Nx j))
            || (sample_high_freq && edge_band Nx sample_n j
                && high_pick g Nx j)
            || line_draw g ivar Nx j
         then 1 else 0)
      (seq 0 Nx).

(** Modelled from the spec: the mask of one batch element; every line spans
    the [Ny] columns, and the unshifted order is used unless [centred]. *)
Definition element_mask (g : G) (ivar : spec_float) (Nx Ny : nat)
           (centred sample_high_freq sample_centre : bool) (sample_n : nat)
  : list (list Z) :=
  let lines :=
    line_mask_centred g ivar Nx sample_high_freq sample_centre sample_n in
  map (fun bit => repeat bit Ny)
      (if centred then lines else ifftshift lines).

(** Modelled from the spec: [cs.cartesian_mask(shape, ivar, centred,
    sample_high_freq, sample_centre, sample_n)] of
    [utils.compressed_sensing] is missing; one independent draw per batch
    element. *)
Fixpoint cartesian_mask_from (Nt : nat) (g : G) (ivar : spec_float)
         (Nx Ny : nat) (centred sample_high_freq sample_centre : bool)
         (sample_n : nat) : list (list (list Z)) * G :=
  match Nt with
  | O => ([], g)
  | S Nt' =>
      let m := element_mask g ivar Nx Ny centred sample_high_freq
                            sample_centre sample_n in
      let '(ms, g') :=
        cartesian_mask_from Nt' (rng_advance g) ivar Nx Ny centred
                            sample_high_freq sample_centre sample_n in
      (m :: ms, g')
  end.

Definition cartesian_mask (g : G) (shape : nat * nat * nat)
           (ivar : spec_float)
           (centred sample_high_freq sample_centre : bool) (sample_n : nat)
  : list (list (list Z)) * G :=
  let '(Nt, Nx, Ny) := shape in
  cartesian_mask_from Nt g ivar Nx Ny centred sample_high_freq
                      sample_centre sample_n.

(** [mask.size]: the number of entries of a three-dimensional mask. *)
Definition mask_size (m : list (list (list Z))) : Z :=
  Z.of_nat (length (concat (concat m))).

(** [np.sum(mask)] *)
Definition mask_sum (m : list (list (list Z))) : Z :=
  fold_right Z.add 0 (concat (concat m)).

(** Lines 154-157, with [Nx, Ny = 128, 128] (line 139): the acceleration
    rate [dummy_mask.size / np.sum(dummy_mask)] of 100 masks.  The call
    leaves [centred] to the default of [cs.cartesian_mask]; the quotient is
    idealised as a rational. *)
Definition acceleration_rate (g : G) (gauss_ivar : spec_float)
           (centred : bool) : Q :=
  let dummy_mask :=
    fst (cartesian_mask g (100, 128, 128)%nat gauss_ivar centred
                        true true 8) in
  (inject_Z (mask_size dummy_mask) / inject_Z (mask_sum dummy_mask))%Q.

End MaskGenerator.

(** ** [compile_fn]

    The symbolic graph built for the loss and the two compiled functions
    are kept as terms; the layers, the optimiser and the graph compiler are
    external.  [args.lr] and [args.l2] are the floats that [float(...)]
    returns. *)

Module Compile.

Inductive expr : Type :=
| Target                                (* T.tensor4('targets') *)
| GetOutput                             (* lasagne.layers.get_output(network) *)
| SquaredErrorMean (a b : expr)         (* squared_error(a, b).mean() *)
| L2Penalty                             (* regularize_network_params(network, l2) *)
| Const (c : spec_float)
| Add (a b : expr)
| Mul (a b : expr).

Inductive var : Type := InputVar | MaskVar | KspaceVar | TargetVar.

(** [lasagne.updates.adam(loss, params, learning_rate)] *)
Record updates : Type := Adam { adam_loss : expr; learning_rate : spec_float }.

(** [theano.function(inputs, outputs, updates=..., on_unused_input='ignore')] *)
Record theano_function : Type := TheanoFunction {
  fn_inputs : list var;
  fn_outputs : list expr;
  fn_updates : option updates
}.

Record args : Type := Args { lr : spec_float; l2 : spec_float }.

(** Reading a local variable that may not have been bound. *)
Definition read_local (X : Type) (name : string) (v : option X)
  : Py.result X :=
  match v with
  | Some x => inr x
  | None => inl (Py.UnboundLocalError name)
  end.

Definition two : spec_float := S754_finite false 1 1.

Definition compile_fn (a : args)
  : Py.result (theano_function * theano_function) :=
  let base_lr := lr a in
  let l2_w := l2 a in
  let pred := GetOutput in
  let loss_sq := Mul (SquaredErrorMean Target pred) (Const two) in
  (* [if l2:] is the only place that binds [loss] *)
  let loss : option expr :=
    if Py.float_bool l2_w
    then Some (Add loss_sq (Mul L2Penalty (Const l2_w)))
    else None in
  match read_local "loss" loss with
  | inl e => inl e
  | inr loss_v =>
      let upd := Adam loss_v base_lr in
      let inputs := [InputVar; MaskVar; KspaceVar; TargetVar] in
      let train_fn := TheanoFunction inputs [loss_v] (Some upd) in
      let val_fn := TheanoFunction inputs [loss_v; pred] None in
      inr (train_fn, val_fn)
  end.

End Compile.

(** ** Numbers of the epoch statistics *)

(** The values of a numpy float that are not finite. *)
Inductive special : Type := PosInf | NegInf | NaN.

(** A numpy float as the metric returns it.  The finite values are
    idealised as rationals (rounding is not modelled); the special values
    are kept, since [10 * log10(peak^2 / mse)] is [+inf] for a zero error,
    [-inf] for a zero peak and [nan] for both. *)
Inductive npfloat : Type :=
| Finite (q : Q)
| Special (s : special).

(** An accumulator starts as the Python integer [0] and becomes a numpy
    float as soon as a loss or a PSNR is added to it. *)
Inductive pynum : Type :=
| PyInt (z : Z)
| PyFloat (q : Q)
| PySpecial (s : special).

(** [acc + x] for a finite numpy float [x]. *)
Definition py_add (acc : pynum) (x : Q) : pynum :=
  match acc with
  | PyInt z => PyFloat (inject_Z z + x)
  | PyFloat q => PyFloat (q + x)
  | PySpecial s => PySpecial s
  end.

(** IEEE addition of two special values: [inf + (-inf)] is [nan]. *)
Definition special_add (a b : special) : special :=
  match a, b with
  | PosInf, PosInf => PosInf
  | NegInf, NegInf => NegInf
  | _, _ => NaN
  end.

Definition special_opp (a : special) : special :=
  match a with
  | PosInf => NegInf
  | NegInf => PosInf
  | NaN => NaN
  end.

(** [acc + x] for any numpy float [x]: a special value absorbs the finite
    ones. *)
Definition np_add (acc : pynum) (x : npfloat) : pynum :=
  match x with
  | Finite q => py_add acc q
  | Special s =>
      match acc with
      | PySpecial a => PySpecial (special_add a s)
      | _ => PySpecial s
      end
  end.

(** [acc / d] for an integer [d], under [from __future__ import division]:
    integer by zero raises, a numpy float by zero gives inf or nan. *)
Definition py_truediv (acc : pynum) (d : Z) : Py.result pynum :=
  match acc with
  | PyInt z =>
      if d =? 0 then inl Py.ZeroDivisionError
      else inr (PyFloat (inject_Z z / inject_Z d))
  | PyFloat q =>
      if d =? 0
      then inr (PySpecial match (q ?= 0)%Q with
                          | Gt => PosInf
                          | Lt => NegInf
                          | Eq => NaN
                          end)
      else inr (PyFloat (q / inject_Z d))
  | PySpecial s => inr (PySpecial (if d <? 0 then special_opp s else s))
  end.

(** ** The training script *)

(** The collaborators of the script: the numpy random generator, the random
    draws of the mask generator, the undersampling simulator, the compiled
    network functions and the metric. *)
Record externals (R G P : Type) : Type := Externals {
  (** [np.random.permutation] on a list of images. *)
  np_random_permutation : G -> list (image R) -> list (image R) * G;
  (** The draws of [cs.cartesian_mask] and the generator state they leave,
      as in the section on the mask generator. *)
  line_draw : G -> spec_float -> nat -> nat -> bool;
  high_pick : G -> nat -> nat -> bool;
  rng_advance : G -> G;
  (** [cs.undersample(im, mask, centred=False, norm='ortho')]: the
      undersampled images and their k-space. *)
  undersample :
    list (image R) -> list (list (list Z)) -> list (image R) * list (image R);
  (** The compiled network functions, applied to the current parameters:
      [train_fn] returns the loss and the updated parameters, [val_fn] the
      loss and the prediction. *)
  train_fn : P -> tensor R -> tensor Z -> tensor R -> tensor R -> Q * P;
  val_fn : P -> tensor R -> tensor Z -> tensor R -> tensor R -> Q * tensor R;
  (** [complex_psnr(x, y, peak='max')] of [utils.metric]: a numpy float,
      [+inf] when the two images are identical. *)
  complex_psnr : image R -> image R -> npfloat
}.

Section Pipeline.

(** Pixel scalars, generator states, network parameter values. *)
Variables R G P : Type.
Variable ext : externals R G P.

Inductive split : Type := Validate | Test.

Inductive line : Type :=
| EpochHeader (e n : Z)
| TrainingLoss (v : pynum)
| ValidationLoss (v : pynum)
| TestLoss (v : pynum)
| BasePSNR (v : pynum)
| TestPSNR (v : pynum)
| ParamsSaved (epoch : Z).

(** What the script does to the outside, in order: calls of the compiled
    functions (with the ground-truth tensor passed and the loss returned; a
    call of [val_fn] also records which loop makes it), PSNR pairs computed
    for one test image, and printed lines. *)
Inductive event : Type :=
| TrainFn (im_gnd : tensor R) (err : Q)
| ValFn (s : split) (im_gnd : tensor R) (err : Q)
| Psnr (base test : npfloat)
| Print (l : line).

(** Files under [models/d2_c2/]. *)
Inductive path : Type :=
| ImFile (i : Z)                        (* im<i>.png *)
| MaskFile (i : Z)                      (* mask<i>.png *)
| ParamFile (model_name : string) (epoch : Z).   (* <model>_epoch_<n>.npz *)

Inductive artifact : Type :=
| Panels (und pred im : image R)        (* |[und, pred, im, im - pred]| *)
| MaskImage (m : plane Z)
| ParamValues (p : P).

Record world : Type := World {
  rng : G;
  net : P;
  store : list (path * artifact);       (* writes, oldest first *)
  trace : list event
}.

(** Computations of the script: a result or an exception, and the world
    as it was left. *)
Definition M (X : Type) : Type := world -> Py.result X * world.

Definition ret (X : Type) (x : X) : M X := fun w => (inr x, w).

Definition bind (X Y : Type) (c : M X) (k : X -> M Y) : M Y :=
  fun w =>
    match c w with
    | (inl e, w') => (inl e, w')
    | (inr x, w') => k x w'
    end.

Definition lift (X : Type) (r : Py.result X) : M X := fun w => (r, w).

Definition emit (e : event) : M unit :=
  fun w => (inr tt, World (rng w) (net w) (store w) (trace w ++ [e])).

Definition write_file (p : path) (a : artifact) : M unit :=
  fun w => (inr tt, World (rng w) (net w) (store w ++ [(p, a)]) (trace w)).

(** A function that draws from the random generator. *)
Definition with_rng (X : Type) (f : G -> X * G) : M X :=
  fun w =>
    let '(x, g') := f (rng w) in
    (inr x, World g' (net w) (store w) (trace w)).

(** [for x in xs: s = body(s, x)] *)
Fixpoint for_each (X S : Type) (body : S -> X -> M S) (xs : list X) (s : S)
  : M S :=
  match xs with
  | [] => ret s
  | x :: xs' => bind (body s x) (fun s' => for_each body xs' s')
  end.

(** [x[0]] *)
Definition index0 (X : Type) (xs : list X) : Py.result X :=
  match xs with
  | [] => inl Py.IndexError
  | x :: _ => inr x
  end.

Notation "x <- c ;; k" := (bind c (fun x => k))
  (at level 61, c at next level, right associativity).
Notation "c ;;; k" := (bind c (fun _ => k))
  (at level 61, right associativity).

(** *** [prep_input] *)

(** [im.shape] of a batch of equally sized images. *)
Definition shape_of (im : list (image R)) : nat * nat * nat :=
  (length im, length (hd [] im), length (hd [] (hd [] im))).

Definition prep_input (g : G) (im : list (image R)) (gauss_ivar : spec_float)
  : (tensor R * tensor R * tensor Z * tensor R) * G :=
  let '(mask, g') :=
    cartesian_mask (line_draw ext) (high_pick ext) (rng_advance ext) g
                   (shape_of im)
                   gauss_ivar false true true 8 in
  let '(im_und, k_und) := undersample ext im mask in
  let im_gnd_l := to_lasagne_format im in
  let im_und_l := to_lasagne_format im_und in
  let k_und_l := to_lasagne_format k_und in
  let mask_l := to_lasagne_format_mask mask in
  ((im_und_l, k_und_l, mask_l, im_gnd_l), g').

(** *** The epoch loop of [__main__] *)

Record config : Type := Config {
  num_epoch : Z;
  batch_size : Z;
  gauss_ivar : spec_float;
  save_fig : bool;
  train : list (image R);
  validate : list (image R);
  test : list (image R)
}.

Definition save_every : Z := 5.
Definition model_name : string := "d2_c2".

Definition minibatches (data : list (image R)) (bsize : Z) (shuffle : bool)
  : M (list (list (image R))) :=
  fun w =>
    let '(r, g') :=
      iterate_minibatch (np_random_permutation ext) (rng w) data bsize
                        shuffle in
    (r, World g' (net w) (store w) (trace w)).

Definition call_train_fn (im_und : tensor R) (mask : tensor Z)
           (k_und im_gnd : tensor R) : M Q :=
  fun w =>
    let '(err, p') := train_fn ext (net w) im_und mask k_und im_gnd in
    (inr err, World (rng w) p' (store w) (trace w ++ [TrainFn im_gnd err])).

Definition call_val_fn (s : split) (im_und : tensor R) (mask : tensor Z)
           (k_und im_gnd : tensor R) : M (Q * tensor R) :=
  fun w =>
    let '(err, pred) := val_fn ext (net w) im_und mask k_und im_gnd in
    (inr (err, pred),
     World (rng w) (net w) (store w) (trace w ++ [ValFn s im_gnd err])).

(** Body of the training loop; the accumulator is
    [(train_err, train_batches)]. *)
Definition train_step (c : config) (acc : pynum * Z) (im : list (image R))
  : M (pynum * Z) :=
  x <- with_rng (fun g => prep_input g im (gauss_ivar c)) ;;
  let '(im_und, k_und, mask, im_gnd) := x in
  err <- call_train_fn im_und mask k_und im_gnd ;;
  ret (py_add (fst acc) err, snd acc + 1).

(** Body of the validation loop; the accumulator is
    [(validate_err, validate_batches)]. *)
Definition validate_step (c : config) (acc : pynum * Z)
           (im : list (image R)) : M (pynum * Z) :=
  x <- with_rng (fun g => prep_input g im (gauss_ivar c)) ;;
  let '(im_und, k_und, mask, im_gnd) := x in
  r <- call_val_fn Validate im_und mask k_und im_gnd ;;
  ret (py_add (fst acc) (fst r), snd acc + 1).

Definition vis_entry : Type :=
  (image R * image R * image R * plane Z)%type.

Record test_acc : Type := TestAcc {
  vis : list vis_entry;
  test_err : pynum;
  base_psnr : pynum;
  test_psnr : pynum;
  test_batches : Z
}.

(** Body of the loop over [zip(im, from(im_und), from(pred))]; the
    accumulator is [(base_psnr, test_psnr)]. *)
Definition psnr_step (acc : pynum * pynum)
           (x : image R * (image R * image R)) : M (pynum * pynum) :=
  let '(im_i, (und_i, pred_i)) := x in
  let b := complex_psnr ext im_i und_i in
  let t := complex_psnr ext im_i pred_i in
  emit (Psnr b t) ;;;
  ret (np_add (fst acc) b, np_add (snd acc) t).

(** Body of the test loop. *)
Definition test_step (c : config) (acc : test_acc) (im : list (image R))
  : M test_acc :=
  x <- with_rng (fun g => prep_input g im (gauss_ivar c)) ;;
  let '(im_und, k_und, mask, im_gnd) := x in
  r <- call_val_fn Test im_und mask k_und im_gnd ;;
  let '(err, pred) := r in
  let test_err' := py_add (test_err acc) err in
  ps <- for_each psnr_step
          (combine im (combine (from_lasagne_format im_und)
                               (from_lasagne_format pred)))
          (base_psnr acc, test_psnr acc) ;;
  let test_batches' := test_batches acc + 1 in
  vis' <- (if save_fig c && (test_batches' mod save_every =? 0)
           then
             a <- lift (index0 im) ;;
             b <- lift (index0 (from_lasagne_format pred)) ;;
             u <- lift (index0 (from_lasagne_format im_und)) ;;
             m <- lift (index0 (from_lasagne_format_mask mask)) ;;
             ret (vis acc ++ [(a, b, u, m)])
           else ret (vis acc)) ;;
  ret (TestAcc vis' test_err' (fst ps) (snd ps) test_batches').

(** The five statistics printed at the end of an epoch (lines 220-226);
    the elapsed time is not modelled. *)
Definition print_summary (c : config) (epoch : Z)
           (train_err : pynum) (train_batches : Z)
           (validate_err : pynum) (validate_batches : Z) (t : test_acc)
  : M unit :=
  emit (Print (EpochHeader (epoch + 1) (num_epoch c + 1))) ;;;
  v1 <- lift (py_truediv train_err (Z.max 1 train_batches)) ;;
  emit (Print (TrainingLoss v1)) ;;;
  v2 <- lift (py_truediv validate_err validate_batches) ;;
  emit (Print (ValidationLoss v2)) ;;;
  v3 <- lift (py_truediv (test_err t) (test_batches t)) ;;
  emit (Print (TestLoss v3)) ;;;
  v4 <- lift (py_truediv (base_psnr t) (test_batches t * batch_size c)) ;;
  emit (Print (BasePSNR v4)) ;;;
  v5 <- lift (py_truediv (test_psnr t) (test_batches t * batch_size c)) ;;
  emit (Print (TestPSNR v5)).

(** Body of the loop over [vis]; the accumulator is the counter [i]. *)
Definition save_vis (i : Z) (v : vis_entry) : M Z :=
  let '(im_i, pred_i, und_i, mask_i) := v in
  write_file (ImFile i) (Panels und_i pred_i im_i) ;;;
  write_file (MaskFile i) (MaskImage mask_i) ;;;
  ret (i + 1).

(** [lasagne.layers.get_all_param_values(net)] *)
Definition get_all_param_values : M P := fun w => (inr (net w), w).

(** The block under [# save the model] (lines 228-241). *)
Definition checkpoint (c : config) (epoch : Z) (vs : list vis_entry)
  : M unit :=
  if save_fig c
     && ((epoch mod save_every =? 0)
         || existsb (Z.eqb epoch) [1; 2; num_epoch c - 1])
  then
    for_each save_vis vs 0 ;;;
    p <- get_all_param_values ;;
    write_file (ParamFile model_name epoch) (ParamValues p) ;;;
    emit (Print (ParamsSaved epoch))
  else ret tt.

(** Lines 169-175: the training loop. *)
Definition train_phase (c : config) : M (pynum * Z) :=
  tb <- minibatches (train c) (batch_size c) true ;;
  for_each (train_step c) tb (PyInt 0, 0).

(** Lines 180-186: the validation loop. *)
Definition validate_phase (c : config) : M (pynum * Z) :=
  vb <- minibatches (validate c) (batch_size c) false ;;
  for_each (validate_step c) vb (PyInt 0, 0).

(** Lines 191-212: the test loop. *)
Definition test_phase (c : config) : M test_acc :=
  sb <- minibatches (test c) (batch_size c) false ;;
  for_each (test_step c) sb (TestAcc [] (PyInt 0) (PyInt 0) (PyInt 0) 0).

(** One iteration of [for epoch in xrange(num_epoch)]. *)
Definition run_epoch (c : config) (epoch : Z) : M unit :=
  tr <- train_phase c ;;
  va <- validate_phase c ;;
  te <- test_phase c ;;
  print_summary c epoch (fst tr) (snd tr) (fst va) (snd va) te ;;;
  checkpoint c epoch (vis te).

(** The script from [compile_fn] on. *)
Definition main (a : Compile.args) (c : config) : M unit :=
  _ <- lift (Compile.compile_fn a) ;;
  epochs <- lift (Py.xrange 0 (num_epoch c) 1) ;;
  for_each (fun (_ : unit) e => run_epoch c e) epochs tt.

End Pipeline.

Arguments Print {R} l.
Arguments Psnr {R} base test.
Arguments ParamValues {R P} p.
Arguments MaskImage {R P} m.

(** * Properties *)

(** ** Ranges and slices *)

(** [ceil(n / b)] on integers. *)
Definition ceil_div (n b : Z) : Z := (n + b - 1) / b.

Lemma ceil_div_bounds (n b : Z) :
  0 < b -> b * (ceil_div n b - 1) < n <= b * ceil_div n b.
Proof.
  intros Hb. unfold ceil_div.
  pose proof (Z.div_mod (n + b - 1) b ltac:(lia)) as Hdm.
  pose proof (Z.mod_pos_bound (n + b - 1) b Hb) as Hm.
  lia.
Qed.

Lemma ceil_div_unique (n b c : Z) :
  0 < b -> b * (c - 1) < n <= b * c -> ceil_div n b = c.
Proof.
  intros Hb Hc. pose proof (ceil_div_bounds n Hb) as H. nia.
Qed.

Lemma ceil_div_step (n b : Z) :
  0 < b -> 0 < n -> ceil_div n b = 1 + ceil_div (n - b) b.
Proof.
  intros Hb Hn. apply ceil_div_unique; [assumption|].
  pose proof (ceil_div_bounds (n - b) Hb). lia.
Qed.

Lemma ceil_div_nonpos (n b : Z) : 0 < b -> n <= 0 -> ceil_div n b <= 0.
Proof.
  intros Hb Hn. pose proof (ceil_div_bounds n Hb). nia.
Qed.

Lemma ceil_div_zero (b : Z) : 0 < b -> ceil_div 0 b = 0.
Proof. intros Hb. apply ceil_div_unique; lia. Qed.

Lemma ceil_div_floor (n b : Z) :
  0 < b -> n mod b <> 0 -> ceil_div n b = n / b + 1.
Proof.
  intros Hb Hr. apply ceil_div_unique; [assumption|].
  pose proof (Z.div_mod n b ltac:(lia)).
  pose proof (Z.mod_pos_bound n b Hb). lia.
Qed.

(** With a positive step the loop of [xrange] stops on its guard, never on
    its fuel: it yields [i, i + step, ...], [ceil((stop - i) / step)] values. *)
Lemma xrange_up_closed (step stop : Z) (Hstep : 0 < step) :
  forall (fuel : nat) (i : Z),
    stop - i <= Z.of_nat fuel ->
    Py.xrange_up fuel i stop step =
    map (fun k => i + Z.of_nat k * step)
        (seq 0 (Z.to_nat (ceil_div (stop - i) step))).
Proof.
  induction fuel as [|fuel IH]; intros i Hfuel; simpl.
  - pose proof (ceil_div_nonpos (n := stop - i) Hstep ltac:(lia)).
    replace (Z.to_nat _) with 0%nat by lia. reflexivity.
  - destruct (Z.ltb_spec i stop) as [Hlt|Hge].
    + rewrite (ceil_div_step (n := stop - i) Hstep) by lia.
      pose proof (ceil_div_bounds (stop - i - step) Hstep).
      assert (0 <= ceil_div (stop - i - step) step) by nia.
      rewrite Z2Nat.inj_add by lia. simpl Z.to_nat.
      change (Pos.to_nat 1) with 1%nat. simpl seq. simpl map.
      f_equal; [lia|].
      rewrite IH by lia. rewrite <- seq_shift, map_map.
      replace (stop - (i + step)) with (stop - i - step) by lia.
      apply map_ext. intros k. lia.
    + pose proof (ceil_div_nonpos (n := stop - i) Hstep ltac:(lia)).
      replace (Z.to_nat _) with 0%nat by lia. reflexivity.
Qed.

Lemma xrange_positive (n step : Z) :
  0 < step ->
  Py.xrange 0 n step =
  inr (map (fun k => Z.of_nat k * step) (seq 0 (Z.to_nat (ceil_div n step)))).
Proof.
  intros Hstep. unfold Py.xrange.
  destruct (Z.eqb_spec step 0); [lia|].
  destruct (Z.ltb_spec 0 step); [|lia].
  rewrite xrange_up_closed by lia.
  replace (n - 0) with n by lia. reflexivity.
Qed.

(** A slice of [b] elements from a non-negative index is [firstn] after
    [skipn]. *)
Lemma slice_chunk (A : Type) (l : list A) (i b : nat) :
  Py.slice l (Z.of_nat i) (Z.of_nat i + Z.of_nat b) = firstn b (skipn i l).
Proof.
  unfold Py.slice, Py.clamp_index.
  destruct (Z.ltb_spec (Z.of_nat i) 0); [lia|].
  destruct (Z.ltb_spec (Z.of_nat i + Z.of_nat b) 0); [lia|].
  rewrite Nat2Z.id. replace (Z.to_nat _) with (i + b)%nat by lia.
  destruct (Nat.le_gt_cases (length l) i) as [Hout|Hin].
  - rewrite (skipn_all2 l) by lia.
    rewrite (skipn_all2 l) by lia. now rewrite !firstn_nil.
  - replace (Nat.min (length l) i) with i by lia.
    destruct (Nat.le_gt_cases (length l) (i + b)) as [Hshort|Hlong].
    + replace (Nat.min (length l) (i + b)) with (length l) by lia.
      rewrite !firstn_all2; try reflexivity; rewrite length_skipn; lia.
    + replace (Nat.min (length l) (i + b)) with (i + b)%nat by lia.
      f_equal. lia.
Qed.

(** ** Minibatching *)

Section MinibatchFacts.

Variables A G : Type.
Variable np_random_permutation : G -> list A -> list A * G.

(** The list the batches are cut from, and the generator state left. *)
Definition drawn (g : G) (data : list A) (shuffle : bool) : list A * G :=
  if shuffle then np_random_permutation g data else (data, g).

Lemma firstn_add_skipn (l : list A) (a b : nat) :
  firstn (a + b) l = firstn a l ++ firstn b (skipn a l).
Proof.
  revert l; induction a as [|a IH]; intros l; simpl; [reflexivity|].
  destruct l as [|x l]; simpl; [now rewrite firstn_nil|].
  now rewrite IH.
Qed.

Lemma chunks_concat (l : list A) (b c : nat) :
  concat (map (fun k => firstn b (skipn (k * b) l)) (seq 0 c))
  = firstn (c * b) l.
Proof.
  induction c as [|c IH]; [reflexivity|].
  rewrite seq_S, map_app, concat_app, IH. simpl.
  rewrite app_nil_r. symmetry. replace (b + c * b)%nat with (c * b + b)%nat by lia.
  apply firstn_add_skipn.
Qed.

Lemma chunk_length (l : list A) (b k : nat) :
  length (firstn b (skipn (k * b) l)) = Nat.min b (length l - k * b).
Proof. now rewrite length_firstn, length_skipn. Qed.

(** The slices [l[k*B : k*B + B]] for [k < ceil(n / B)]. *)
Definition batches_of (n : nat) (l : list A) (bsize : Z) : list (list A) :=
  map (fun k => firstn (Z.to_nat bsize) (skipn (k * Z.to_nat bsize) l))
      (seq 0 (Z.to_nat (ceil_div (Z.of_nat n) bsize))).

(** For a batch size of at least one the generator yields these slices,
    cut from the list drawn and counted from the length of the input. *)
Lemma iterate_minibatch_closed (g : G) (data : list A) (bsize : Z)
      (shuffle : bool) :
  1 <= bsize ->
  iterate_minibatch np_random_permutation g data bsize shuffle =
  (inr (batches_of (length data) (fst (drawn g data shuffle)) bsize),
   snd (drawn g data shuffle)).
Proof.
  intros Hb. unfold iterate_minibatch, drawn, batches_of.
  destruct (if shuffle then np_random_permutation g data else (data, g))
    as [data' g'].
  rewrite xrange_positive by lia. simpl fst; simpl snd.
  f_equal. f_equal. rewrite map_map. apply map_ext. intros k.
  rewrite <- slice_chunk. f_equal; lia.
Qed.

(** What the specification says of the batches cut from [n] elements. *)
Definition partitions (n bsize : Z) (batches : list (list A)) : Prop :=
  Z.of_nat (length batches) = ceil_div n bsize
  /\ (forall k, (S k < length batches)%nat ->
                Z.of_nat (length (nth k batches [])) = bsize)
  /\ (n mod bsize <> 0 ->
      Z.of_nat (length (last batches [])) = n mod bsize)
  /\ Z.of_nat (list_sum (map (@length A) batches)) = n.

Lemma length_concat_sum (ls : list (list A)) :
  length (concat ls) = list_sum (map (@length A) ls).
Proof.
  induction ls as [|x ls IH]; simpl; [reflexivity|].
  now rewrite length_app, IH.
Qed.

Lemma length_batches_of (n : nat) (l : list A) (bsize : Z) :
  1 <= bsize ->
  Z.of_nat (length (batches_of n l bsize)) = ceil_div (Z.of_nat n) bsize.
Proof.
  intros Hb. unfold batches_of. rewrite length_map, length_seq.
  pose proof (@ceil_div_bounds (Z.of_nat n) bsize ltac:(lia)). nia.
Qed.

Lemma batches_of_zero (l : list A) (bsize : Z) :
  1 <= bsize -> batches_of 0 l bsize = [].
Proof.
  intros Hb. pose proof (length_batches_of 0 l Hb) as Hlen.
  pose proof (@ceil_div_nonpos 0 bsize ltac:(lia) ltac:(lia)).
  destruct (batches_of 0 l bsize); [reflexivity | simpl in *; lia].
Qed.

Lemma nth_batches_of (n : nat) (l : list A) (bsize : Z) (k : nat) :
  (k < length (batches_of n l bsize))%nat ->
  nth k (batches_of n l bsize) []
  = firstn (Z.to_nat bsize) (skipn (k * Z.to_nat bsize) l).
Proof.
  unfold batches_of. rewrite length_map, length_seq. intros Hk.
  rewrite (nth_indep _ [] (firstn (Z.to_nat bsize)
                                  (skipn (0 * Z.to_nat bsize) l)))
    by now rewrite length_map, length_seq.
  rewrite (map_nth (fun k => firstn (Z.to_nat bsize)
                                    (skipn (k * Z.to_nat bsize) l))).
  now rewrite seq_nth.
Qed.

Lemma batches_partition (l : list A) (bsize : Z) :
  1 <= bsize ->
  partitions (Z.of_nat (length l)) bsize (batches_of (length l) l bsize).
Proof.
  intros Hb.
  pose proof (length_batches_of (length l) l Hb) as Hcount.
  set (n := Z.of_nat (length l)) in *.
  set (b := Z.to_nat bsize).
  pose proof (@ceil_div_bounds n bsize ltac:(lia)) as Hc.
  unfold partitions. split; [assumption|]. split; [|split].
  - intros k Hk. rewrite nth_batches_of by lia. rewrite chunk_length.
    assert (Z.of_nat (S k) * bsize < n) by (subst n; nia).
    subst b n. nia.
  - intros Hr.
    pose proof (@ceil_div_floor n bsize ltac:(lia) Hr) as Hcf.
    pose proof (Z.div_pos n bsize ltac:(subst n; lia) ltac:(lia)) as Hq.
    unfold batches_of. fold n. fold b.
    replace (Z.to_nat (ceil_div n bsize)) with (S (Z.to_nat (n / bsize)))
      by lia.
    rewrite seq_S, map_app. simpl map. rewrite last_last.
    rewrite chunk_length.
    pose proof (Z.div_mod n bsize ltac:(lia)) as Hdm.
    pose proof (Z.mod_pos_bound n bsize ltac:(lia)) as Hm.
    subst b n. nia.
  - rewrite <- length_concat_sum. unfold batches_of.
    rewrite chunks_concat.
    rewrite firstn_all2; [reflexivity|]. subst b n. nia.
Qed.

Lemma batches_cover (l : list A) (bsize : Z) :
  1 <= bsize -> concat (batches_of (length l) l bsize) = l.
Proof.
  intros Hb. unfold batches_of. rewrite chunks_concat. apply firstn_all2.
  pose proof (@ceil_div_bounds (Z.of_nat (length l)) bsize ltac:(lia)).
  nia.
Qed.

Lemma batches_nonempty (l : list A) (bsize : Z) :
  1 <= bsize -> Forall (fun b => b <> []) (batches_of (length l) l bsize).
Proof.
  intros Hb. apply Forall_forall. intros x Hx.
  apply (In_nth _ _ []) in Hx. destruct Hx as [k [Hk Hx]].
  rewrite nth_batches_of in Hx by assumption.
  pose proof (length_batches_of (length l) l Hb) as Hcount.
  pose proof (@ceil_div_bounds (Z.of_nat (length l)) bsize ltac:(lia)) as Hc.
  intros ->. apply (f_equal (@length A)) in Hx.
  rewrite chunk_length in Hx. simpl in Hx. nia.
Qed.

End MinibatchFacts.

(** ** Format adapter *)

Section AdapterFacts.

Variable R : Type.

Lemma combine_fst_snd (X Y : Type) (l : list (X * Y)) :
  combine (map fst l) (map snd l) = l.
Proof.
  induction l as [|[x y] l IH]; simpl; [reflexivity|]. now rewrite IH.
Qed.

Lemma join_planes_split (im : image R) :
  join_planes (map (map fst) im) (map (map snd) im) = im.
Proof.
  unfold join_planes.
  induction im as [|row im IH]; simpl; [reflexivity|].
  now rewrite combine_fst_snd, IH.
Qed.

Lemma from_to_lasagne_format (x : list (image R)) :
  from_lasagne_format (to_lasagne_format x) = x.
Proof.
  unfold from_lasagne_format, to_lasagne_format.
  induction x as [|im x IH]; simpl; [reflexivity|].
  rewrite join_planes_split. f_equal. exact IH.
Qed.

Lemma from_to_lasagne_format_mask (m : list (plane R)) :
  from_lasagne_format_mask (to_lasagne_format_mask m) = m.
Proof.
  unfold from_lasagne_format_mask, to_lasagne_format_mask.
  rewrite map_map. simpl. apply map_id.
Qed.

Lemma length_to_lasagne_format (x : list (image R)) :
  length (to_lasagne_format x) = length x.
Proof. apply length_map. Qed.

Lemma length_from_lasagne_format (t : tensor R) :
  length (from_lasagne_format t) = length t.
Proof. apply length_map. Qed.

End AdapterFacts.

(** C5: converting a batch of complex images to the network format and back
    returns the batch itself, and so does converting a batch of masks with
    [mask=True]; the statement holds at every scalar type, every shape and
    every batch size, because neither conversion computes on a scalar. *)
Theorem lasagne_format_round_trip (R : Type) :
  (forall x : list (image R), from_lasagne_format (to_lasagne_format x) = x)
  /\ (forall m : list (plane R),
         from_lasagne_format_mask (to_lasagne_format_mask m) = m).
Proof.
  split; [apply from_to_lasagne_format | apply from_to_lasagne_format_mask].
Qed.

(** ** Mask generator *)

Section MaskFacts.

Variable G : Type.
Variable line_draw : G -> spec_float -> nat -> nat -> bool.
Variable high_pick : G -> nat -> nat -> bool.
Variable rng_advance : G -> G.

(** The band holds the lowest frequencies: no frequency outside it is
    smaller in magnitude than one inside it. *)
Lemma low_band_lowest (k : nat) (f f' : Z) :
  low_band k f = true -> low_band k f' = false -> Z.abs f <= Z.abs f'.
Proof.
  unfold low_band. intros Hin Hout.
  apply andb_true_iff in Hin. destruct Hin as [H1 H2].
  apply andb_false_iff in Hout.
  pose proof (Nat.div_mod_eq k 2) as Hk.
  pose proof (Nat.mod_upper_bound k 2 ltac:(lia)) as Hk2.
  destruct Hout as [H|H]; lia.
Qed.

(** When the image has at least [k] lines, each of the [k] frequencies of
    the band is the frequency of one of its lines. *)
Lemma low_band_lines (Nx k : nat) (f : Z) :
  (k <= Nx)%nat -> low_band k f = true ->
  exists i, (i < Nx)%nat /\ fft_freq Nx i = f.
Proof.
  unfold low_band, fft_freq. intros Hk Hin.
  apply andb_true_iff in Hin. destruct Hin as [H1 H2].
  pose proof (Nat.div_mod_eq k 2). pose proof (Nat.mod_upper_bound k 2 ltac:(lia)).
  pose proof (Nat.div_mod_eq Nx 2). pose proof (Nat.mod_upper_bound Nx 2 ltac:(lia)).
  pose proof (Nat.div_mod_eq (Nx + 1) 2).
  pose proof (Nat.mod_upper_bound (Nx + 1) 2 ltac:(lia)).
  destruct (Z.ltb_spec f 0) as [Hneg|Hpos].
  - exists (Z.to_nat (f + Z.of_nat Nx)). split; [lia|].
    destruct (Nat.ltb_spec (Z.to_nat (f + Z.of_nat Nx)) ((Nx + 1) / 2)); lia.
  - exists (Z.to_nat f). split; [lia|].
    destruct (Nat.ltb_spec (Z.to_nat f) ((Nx + 1) / 2)); lia.
Qed.

Lemma nth_map_seq (X : Type) (f : nat -> X) (n j : nat) (d : X) :
  (j < n)%nat -> nth j (map f (seq 0 n)) d = f j.
Proof.
  intros Hj.
  rewrite (nth_indep _ d (f 0%nat)) by (rewrite length_map, length_seq; lia).
  now rewrite (map_nth f), seq_nth.
Qed.

Lemma length_ifftshift (X : Type) (l : list X) :
  length (ifftshift l) = length l.
Proof.
  unfold ifftshift. rewrite length_app, length_skipn, length_firstn.
  pose proof (Nat.div_mod_eq (length l) 2). lia.
Qed.

Lemma nth_ifftshift (X : Type) (l : list X) (d : X) (i : nat) :
  (i < length l)%nat ->
  nth i (ifftshift l) d = nth ((i + length l / 2) mod length l) l d.
Proof.
  intros Hi. unfold ifftshift.
  pose proof (Nat.div_mod_eq (length l) 2).
  pose proof (Nat.mod_upper_bound (length l) 2 ltac:(lia)).
  set (h := (length l / 2)%nat) in *.
  destruct (Nat.lt_ge_cases (i + h) (length l)) as [Hlo|Hhi].
  - rewrite app_nth1 by (rewrite length_skipn; lia).
    rewrite nth_skipn, Nat.mod_small by lia. f_equal. lia.
  - rewrite app_nth2 by (rewrite length_skipn; lia).
    rewrite length_skipn.
    replace ((i + h) mod length l)%nat with (i + h - length l)%nat.
    + rewrite nth_firstn.
      destruct (Nat.ltb_spec (i - (length l - h)) h); [f_equal; lia | lia].
    + apply Nat.mod_unique with (q := 1%nat); lia.
Qed.

Lemma shifted_freq (Nx i : nat) :
  (i < Nx)%nat -> centred_freq Nx ((i + Nx / 2) mod Nx) = fft_freq Nx i.
Proof.
  intros Hi. unfold centred_freq, fft_freq.
  pose proof (Nat.div_mod_eq Nx 2). pose proof (Nat.mod_upper_bound Nx 2 ltac:(lia)).
  pose proof (Nat.div_mod_eq (Nx + 1) 2).
  pose proof (Nat.mod_upper_bound (Nx + 1) 2 ltac:(lia)).
  destruct (Nat.ltb_spec i ((Nx + 1) / 2)) as [Hlo|Hhi].
  - rewrite Nat.mod_small by lia. lia.
  - replace ((i + Nx / 2) mod Nx)%nat with (i + Nx / 2 - Nx)%nat.
    + lia.
    + apply Nat.mod_unique with (q := 1%nat); lia.
Qed.

Lemma length_line_mask_centred g ivar Nx hf sc k :
  length (line_mask_centred line_draw high_pick g ivar Nx hf sc k) = Nx.
Proof. unfold line_mask_centred. now rewrite length_map, length_seq. Qed.

Lemma nth_line_mask_centred g ivar Nx hf k j :
  (j < Nx)%nat -> low_band k (centred_freq Nx j) = true ->
  nth j (line_mask_centred line_draw high_pick g ivar Nx hf true k) 0 = 1.
Proof.
  intros Hj Hband. unfold line_mask_centred.
  rewrite nth_map_seq by assumption. simpl. now rewrite Hband.
Qed.

(** Within one batch element: a line whose frequency lies in the band is
    set over all its columns. *)
Lemma element_mask_centre g ivar Nx Ny centred hf k i y :
  (i < Nx)%nat -> (y < Ny)%nat ->
  low_band k (line_freq centred Nx i) = true ->
  nth y (nth i (element_mask line_draw high_pick g ivar Nx Ny
                             centred hf true k) []) 0 = 1.
Proof.
  intros Hi Hy Hband. unfold element_mask.
  set (lines := line_mask_centred _ _ _ _ _ _ _ _).
  assert (Hlen : length lines = Nx) by apply length_line_mask_centred.
  assert (Hline : nth i (if centred then lines else ifftshift lines) 0 = 1).
  { destruct centred; simpl in Hband.
    - now apply nth_line_mask_centred.
    - rewrite nth_ifftshift by lia. rewrite Hlen.
      apply nth_line_mask_centred.
      + apply Nat.mod_upper_bound. lia.
      + now rewrite shifted_freq. }
  rewrite (nth_indep _ [] (repeat 0 Ny))
    by (rewrite length_map; destruct centred;
        rewrite ?length_ifftshift; lia).
  rewrite (map_nth (fun bit => repeat bit Ny)), Hline.
  now apply nth_repeat_lt.
Qed.

Lemma cartesian_mask_from_nth Nt g ivar Nx Ny centred hf sc k b :
  (b < Nt)%nat ->
  exists g',
    nth b (fst (cartesian_mask_from line_draw high_pick rng_advance Nt g
                                    ivar Nx Ny centred hf sc k)) []
    = element_mask line_draw high_pick g' ivar Nx Ny centred hf sc k.
Proof.
  revert g b. induction Nt as [|Nt IH]; intros g b Hb; [lia|].
  simpl.
  destruct (cartesian_mask_from _ _ _ Nt (rng_advance g) _ _ _ _ _ _ _)
    as [ms g1] eqn:E.
  destruct b as [|b]; simpl.
  - now exists g.
  - destruct (IH (rng_advance g) b ltac:(lia)) as [g' Hg'].
    exists g'. now rewrite E in Hg'.
Qed.

Lemma length_cartesian_mask_from Nt g ivar Nx Ny centred hf sc k :
  length (fst (cartesian_mask_from line_draw high_pick rng_advance Nt g
                                   ivar Nx Ny centred hf sc k)) = Nt.
Proof.
  revert g. induction Nt as [|Nt IH]; intros g; [reflexivity|].
  simpl.
  destruct (cartesian_mask_from _ _ _ Nt (rng_advance g) _ _ _ _ _ _ _)
    as [ms g1] eqn:E.
  simpl. f_equal. specialize (IH (rng_advance g)). now rewrite E in IH.
Qed.

Lemma length_cartesian_mask g Nt Nx Ny ivar centred hf sc k :
  length (fst (cartesian_mask line_draw high_pick rng_advance g
                              (Nt, Nx, Ny) ivar centred hf sc k)) = Nt.
Proof. apply length_cartesian_mask_from. Qed.

Lemma cartesian_mask_centre g Nt Nx Ny ivar centred hf k b i y :
  (b < Nt)%nat -> (i < Nx)%nat -> (y < Ny)%nat ->
  low_band k (line_freq centred Nx i) = true ->
  nth y (nth i (nth b (fst (cartesian_mask line_draw high_pick rng_advance
                                           g (Nt, Nx, Ny) ivar centred hf
                                           true k)) []) []) 0 = 1.
Proof.
  intros Hb Hi Hy Hband. unfold cartesian_mask.
  destruct (cartesian_mask_from_nth g ivar Nx Ny centred hf true k Hb)
    as [g' ->].
  now apply element_mask_centre.
Qed.

(** *** The acceleration rate *)



















End MaskFacts.

(** ** [compile_fn] *)

Lemma float_bool_eq_zero (x : spec_float) :
  Py.float_bool x = negb (Py.float_eq_zero x).
Proof.
  unfold Py.float_bool, Py.float_eq_zero, SFeqb.
  destruct (SFcompare x (S754_zero false)) as [[| |]|]; reflexivity.
Qed.

(** C9: [loss] is bound only under [if l2:].  When [l2 == 0] the call of the
    update rule reads an unbound local and [compile_fn] raises; when
    [l2 != 0] it returns the training function (loss, with the Adam updates)
    and the evaluation function (loss and prediction, no updates). *)
Theorem compile_fn_requires_l2 (a : Compile.args) :
  (Py.float_eq_zero (Compile.l2 a) = true ->
   Compile.compile_fn a = inl (Py.UnboundLocalError "loss"))
  /\ (Py.float_eq_zero (Compile.l2 a) = false ->
      exists loss,
        Compile.compile_fn a =
        inr (Compile.TheanoFunction
               [Compile.InputVar; Compile.MaskVar; Compile.KspaceVar;
                Compile.TargetVar]
               [loss] (Some (Compile.Adam loss (Compile.lr a))),
             Compile.TheanoFunction
               [Compile.InputVar; Compile.MaskVar; Compile.KspaceVar;
                Compile.TargetVar]
               [loss; Compile.GetOutput] None)).
Proof.
  unfold Compile.compile_fn. rewrite float_bool_eq_zero.
  split; intros ->; simpl; [reflexivity|].
  eexists. reflexivity.
Qed.

(** [l2 = -0.0] is equal to zero and raises; [2^-20], a binary fraction near
    the default [1e-6], compiles. *)
Lemma compile_fn_requires_l2_witness :
  Compile.compile_fn (Compile.Args (S754_finite false 1 (-10)) (S754_zero true))
  = inl (Py.UnboundLocalError "loss")
  /\ exists loss,
      Compile.compile_fn
        (Compile.Args (S754_finite false 1 (-10)) (S754_finite false 1 (-20)))
      = inr (Compile.TheanoFunction
               [Compile.InputVar; Compile.MaskVar; Compile.KspaceVar;
                Compile.TargetVar]
               [loss]
               (Some (Compile.Adam loss (S754_finite false 1 (-10)))),
             Compile.TheanoFunction
               [Compile.InputVar; Compile.MaskVar; Compile.KspaceVar;
                Compile.TargetVar]
               [loss; Compile.GetOutput] None).
Proof.
  split.
  - apply (proj1 (compile_fn_requires_l2
                    (Compile.Args (S754_finite false 1 (-10)) (S754_zero true)))).
    reflexivity.
  - apply (proj2 (compile_fn_requires_l2
                    (Compile.Args (S754_finite false 1 (-10))
                                  (S754_finite false 1 (-20))))).
    reflexivity.
Defined.

(** ** The epoch loop *)

(** Events of one kind picked out of a trace. *)
Definition pick (X Y : Type) (f : X -> option Y) (l : list X) : list Y :=
  flat_map (fun x => match f x with Some y => [y] | None => [] end) l.

Lemma pick_app (X Y : Type) (f : X -> option Y) (l l' : list X) :
  pick f (l ++ l') = pick f l ++ pick f l'.
Proof. apply flat_map_app. Qed.

Lemma pick_none (X Y : Type) (f : X -> option Y) (l : list X) :
  Forall (fun x => f x = None) l -> pick f l = [].
Proof.
  induction 1 as [|x l Hx _ IH]; [reflexivity|].
  unfold pick in *. simpl. now rewrite Hx, IH.
Qed.

(** Sum and arithmetic mean of a list of PSNR values. *)
Definition Qsum (qs : list Q) : Q := fold_left Qplus qs 0%Q.

Definition mean (qs : list Q) : Q :=
  (Qsum qs / inject_Z (Z.of_nat (length qs)))%Q.

Lemma fold_py_add_float (qs : list Q) (a : Q) :
  fold_left py_add qs (PyFloat a) = PyFloat (fold_left Qplus qs a).
Proof.
  revert a. induction qs as [|q qs IH]; intros a; [reflexivity|].
  simpl. apply IH.
Qed.

(** An accumulator that received at least one value is the float holding
    their sum. *)
Lemma fold_py_add (qs : list Q) :
  qs <> [] -> fold_left py_add qs (PyInt 0) = PyFloat (Qsum qs).
Proof.
  destruct qs as [|q qs]; [congruence|]. intros _.
  simpl. apply fold_py_add_float.
Qed.

(** Dividing a positive sum by a larger count gives a smaller quotient. *)
Lemma smaller_over_larger (s : Q) (n d : Z) :
  0 < n < d -> (0 < s)%Q -> (s / inject_Z d < s / inject_Z n)%Q.
Proof.
  intros [Hn Hd] Hs. unfold Qdiv.
  apply Qmult_lt_l; [assumption|].
  apply -> Qinv_lt_contravar.
  - now rewrite <- Zlt_Qlt.
  - change 0%Q with (inject_Z 0). rewrite <- Zlt_Qlt. lia.
  - change 0%Q with (inject_Z 0). now rewrite <- Zlt_Qlt.
Qed.

(** Dividing a negative sum by a larger count gives a larger quotient. *)
Lemma larger_over_larger (s : Q) (n d : Z) :
  0 < n < d -> (s < 0)%Q -> (s / inject_Z n < s / inject_Z d)%Q.
Proof.
  intros Hnd Hs.
  assert (H : (- s / inject_Z d < - s / inject_Z n)%Q).
  { apply smaller_over_larger; [assumption|].
    apply (Qopp_lt_compat s 0) in Hs. exact Hs. }
  unfold Qdiv in *.
  setoid_replace (- s * / inject_Z d)%Q with (- (s * / inject_Z d))%Q in H
    by ring.
  setoid_replace (- s * / inject_Z n)%Q with (- (s * / inject_Z n))%Q in H
    by ring.
  now apply Qopp_lt_compat in H; rewrite !Qopp_involutive in H.
Qed.

(** The value of a PSNR accumulator after [xs]: [0 + x1 + ... + xn]. *)
Definition np_sum (xs : list npfloat) : pynum :=
  fold_left np_add xs (PyInt 0).

Definition is_finite (x : npfloat) : bool :=
  match x with
  | Finite _ => true
  | Special _ => false
  end.

Lemma fold_np_add_finite (qs : list Q) (acc : pynum) :
  fold_left np_add (map Finite qs) acc = fold_left py_add qs acc.
Proof.
  revert acc. induction qs as [|q qs IH]; intros acc; [reflexivity|].
  simpl. apply IH.
Qed.

(** Finite values add up to their sum. *)
Lemma np_sum_finite (qs : list Q) :
  qs <> [] -> np_sum (map Finite qs) = PyFloat (Qsum qs).
Proof.
  intros Hne. unfold np_sum. rewrite fold_np_add_finite.
  now apply fold_py_add.
Qed.

Lemma fold_np_add_special (xs : list npfloat) (s : special) :
  exists s', fold_left np_add xs (PySpecial s) = PySpecial s'.
Proof.
  revert s. induction xs as [|x xs IH]; intros s; [now exists s|].
  simpl. destruct x as [q|t]; simpl; apply IH.
Qed.

(** One value that is not finite makes the whole sum not finite. *)
Lemma fold_np_add_not_finite (xs : list npfloat) (x : npfloat) :
  In x xs -> is_finite x = false ->
  forall acc, exists s, fold_left np_add xs acc = PySpecial s.
Proof.
  intros Hin Hx. induction xs as [|y xs IH]; [destruct Hin|].
  intros acc. destruct Hin as [->|Hin].
  - destruct x as [q|t]; [discriminate|]. simpl.
    destruct acc; apply fold_np_add_special.
  - simpl. apply IH. exact Hin.
Qed.

Section Events.

Variable R : Type.

(** Ground-truth tensor of a call of [train_fn]. *)
Definition train_gnd (e : event R) : option (tensor R) :=
  match e with TrainFn g _ => Some g | _ => None end.

(** Ground-truth tensor of a call of [val_fn] made for the split [s]. *)
Definition val_gnd (s : split) (e : event R) : option (tensor R) :=
  match e, s with
  | ValFn Validate g _, Validate => Some g
  | ValFn Test g _, Test => Some g
  | _, _ => None
  end.

(** The PSNR pair of one test image. *)
Definition psnr_term (e : event R) : option (npfloat * npfloat) :=
  match e with Psnr b t => Some (b, t) | _ => None end.

Definition printed (e : event R) : option line :=
  match e with Print l => Some l | _ => None end.

Definition is_train_fn (e : event R) : Prop :=
  match e with TrainFn _ _ => True | _ => False end.

Definition is_val_fn (s : split) (e : event R) : Prop :=
  match e, s with
  | ValFn Validate _ _, Validate => True
  | ValFn Test _ _, Test => True
  | _, _ => False
  end.

Definition is_test_event (e : event R) : Prop :=
  match e with ValFn Test _ _ | Psnr _ _ => True | _ => False end.

Definition is_print (e : event R) : Prop :=
  match e with Print _ => True | _ => False end.

(** What the summary line [label] says of the per-image values [xs], [N]
    of them, when the code divides their sum by [D]: the value printed is
    the sum over [D]; when every value is finite it lies strictly below the
    mean for a positive sum and strictly above it for a negative one, once
    [D] exceeds [N]; when a value is not finite, the value printed and the
    mean are the same value that is not finite. *)
Definition psnr_report (N D : Z) (label : pynum -> line)
           (xs : list npfloat) (evs : list (event R)) : Prop :=
  exists reported,
    py_truediv (np_sum xs) D = inr reported
    /\ In (Print (label reported)) evs
    /\ (forall qs, xs = map Finite qs ->
          reported = PyFloat (Qsum qs / inject_Z D)
          /\ (N < D -> (0 < Qsum qs)%Q ->
              (Qsum qs / inject_Z D < mean qs)%Q)
          /\ (N < D -> (Qsum qs < 0)%Q ->
              (mean qs < Qsum qs / inject_Z D)%Q))
    /\ (forall x, In x xs -> is_finite x = false ->
          exists s, reported = PySpecial s
                    /\ py_truediv (np_sum xs) N = inr (PySpecial s)).

Lemma psnr_report_of (N D : Z) (label : pynum -> line)
      (xs : list npfloat) (evs : list (event R)) (reported : pynum) :
  0 < N <= D -> Z.of_nat (length xs) = N ->
  py_truediv (np_sum xs) D = inr reported ->
  In (Print (label reported)) evs ->
  psnr_report N D label xs evs.
Proof.
  intros [HN HD] Hlen Hdiv Hin. exists reported.
  split; [assumption|]. split; [assumption|]. split.
  - intros qs Hqs. subst xs. rewrite length_map in Hlen.
    assert (Hne : qs <> []) by (intros E; subst qs; simpl in Hlen; lia).
    rewrite (np_sum_finite Hne) in Hdiv. unfold py_truediv in Hdiv.
    destruct (Z.eqb_spec D 0) as [E|_]; [lia|].
    injection Hdiv as <-.
    split; [reflexivity|]. unfold mean. rewrite Hlen.
    split; intros Hlt Hs.
    + apply smaller_over_larger; [lia | assumption].
    + apply larger_over_larger; [lia | assumption].
  - intros x Hx Hfin.
    destruct (fold_np_add_not_finite xs x Hx Hfin (PyInt 0)) as [s Hs].
    fold (np_sum xs) in Hs. rewrite Hs in Hdiv |- *.
    unfold py_truediv in Hdiv |- *.
    destruct (Z.ltb_spec D 0) as [E|_]; [lia|].
    destruct (Z.ltb_spec N 0) as [E|_]; [lia|].
    injection Hdiv as <-. exists s. split; reflexivity.
Qed.

End Events.

Section Frames.

Variables R G P : Type.

(** Nothing was written to the artifact store. *)
Definition same_store (w w' : world R G P) : Prop := store w' = store w.

(** The trace grew, by events that satisfy [Pe] only. *)
Definition emits (Pe : event R -> Prop) (w w' : world R G P) : Prop :=
  exists evs, trace w' = trace w ++ evs /\ Forall Pe evs.

(** [c] relates the world it starts in to the world it leaves, whether it
    returns or raises. *)
Definition frame (Rel : world R G P -> world R G P -> Prop) (X : Type) (c : M R G P X) : Prop :=
  forall w, Rel w (snd (c w)).

Lemma same_store_refl w : same_store w w.
Proof. reflexivity. Qed.

Lemma same_store_trans a b c :
  same_store a b -> same_store b c -> same_store a c.
Proof. unfold same_store. congruence. Qed.

Lemma emits_refl Pe w : emits Pe w w.
Proof. exists []. now rewrite app_nil_r. Qed.

Lemma emits_same_trace Pe w w' : trace w' = trace w -> emits Pe w w'.
Proof. intros H. exists []. now rewrite app_nil_r. Qed.

Lemma emits_unique Pe w w' evs :
  trace w' = trace w ++ evs -> emits Pe w w' -> Forall Pe evs.
Proof.
  intros H [evs' [H' F]]. rewrite H in H'.
  apply app_inv_head in H'. now subst.
Qed.

Lemma emits_trans Pe a b c : emits Pe a b -> emits Pe b c -> emits Pe a c.
Proof.
  intros [e1 [H1 F1]] [e2 [H2 F2]]. exists (e1 ++ e2). split.
  - now rewrite H2, H1, app_assoc.
  - now apply Forall_app.
Qed.

Lemma emits_weaken (Pe Pe' : event R -> Prop) w w' :
  (forall e, Pe e -> Pe' e) -> emits Pe w w' -> emits Pe' w w'.
Proof.
  intros Himp [evs [H F]]. exists evs. split; [assumption|].
  now apply Forall_impl with (P := Pe).
Qed.

Section Closure.

Variable Rel : world R G P -> world R G P -> Prop.
Hypothesis Rel_refl : forall w, Rel w w.
Hypothesis Rel_trans : forall a b c, Rel a b -> Rel b c -> Rel a c.

Lemma frame_ret (X : Type) (x : X) : frame Rel (ret x).
Proof. intros w. apply Rel_refl. Qed.

Lemma frame_lift (X : Type) (r : Py.result X) : frame Rel (lift r).
Proof. intros w. apply Rel_refl. Qed.

Lemma frame_bind (X Y : Type) (c : M R G P X) (k : X -> M R G P Y) :
  frame Rel c -> (forall x, frame Rel (k x)) -> frame Rel (bind c k).
Proof.
  intros Hc Hk w. unfold bind. specialize (Hc w).
  destruct (c w) as [[e|x] w1]; simpl in *; [assumption|].
  eapply Rel_trans; [exact Hc | apply Hk].
Qed.

Lemma frame_for_each (X S : Type) (body : S -> X -> M R G P S)
      (xs : list X) :
  (forall s x, frame Rel (body s x)) ->
  forall s, frame Rel (for_each body xs s).
Proof.
  intros Hbody. induction xs as [|x xs IH]; intros s; simpl.
  - apply frame_ret.
  - apply frame_bind; [apply Hbody | assumption].
Qed.

End Closure.

End Frames.

Arguments frame_ret [R G P Rel] Rel_refl [X] x.
Arguments frame_lift [R G P Rel] Rel_refl [X] r.

Section PipelineFacts.

Variables R G P : Type.
Variable ext : externals R G P.

(** *** What each step may do to the store and to the trace *)

Lemma store_emit (e : event R) : frame (@same_store R G P) (emit e).
Proof. intros w. reflexivity. Qed.

Lemma store_with_rng (X : Type) (f : G -> X * G) :
  frame (@same_store R G P) (with_rng f).
Proof. intros w. unfold with_rng. now destruct (f (rng w)). Qed.

Lemma store_minibatches data bsize shuffle :
  frame (@same_store R G P) (minibatches ext data bsize shuffle).
Proof. intros w. unfold minibatches. now destruct iterate_minibatch. Qed.

Lemma store_call_train_fn a m k t :
  frame (@same_store R G P) (call_train_fn ext a m k t).
Proof. intros w. unfold call_train_fn. now destruct train_fn. Qed.

Lemma store_call_val_fn s a m k t :
  frame (@same_store R G P) (call_val_fn ext s a m k t).
Proof. intros w. unfold call_val_fn. now destruct val_fn. Qed.

Lemma store_get_all_param_values :
  frame (@same_store R G P) (@get_all_param_values R G P).
Proof. intros w. reflexivity. Qed.

Lemma emits_emit (Pe : event R -> Prop) (e : event R) :
  Pe e -> frame (@emits R G P Pe) (emit e).
Proof. intros He w. exists [e]. split; [reflexivity | now constructor]. Qed.

Lemma emits_with_rng Pe (X : Type) (f : G -> X * G) :
  frame (@emits R G P Pe) (with_rng f).
Proof.
  intros w. unfold with_rng. destruct (f (rng w)).
  now apply emits_same_trace.
Qed.

Lemma emits_minibatches Pe data bsize shuffle :
  frame (@emits R G P Pe) (minibatches ext data bsize shuffle).
Proof.
  intros w. unfold minibatches. destruct iterate_minibatch.
  now apply emits_same_trace.
Qed.

Lemma emits_write_file Pe (p : path) (a : artifact R P) :
  frame (@emits R G P Pe) (write_file p a).
Proof. intros w. now apply emits_same_trace. Qed.

Lemma emits_get_all_param_values Pe :
  frame (@emits R G P Pe) (@get_all_param_values R G P).
Proof. intros w. apply emits_refl. Qed.

Lemma emits_call_train_fn (Pe : event R -> Prop) a m k t :
  (forall g q, Pe (TrainFn g q)) ->
  frame (@emits R G P Pe) (call_train_fn ext a m k t).
Proof.
  intros He w. unfold call_train_fn. destruct train_fn as [err p].
  exists [TrainFn t err]. split; [reflexivity | now constructor].
Qed.

Lemma emits_call_val_fn (Pe : event R -> Prop) s a m k t :
  (forall g q, Pe (ValFn s g q)) ->
  frame (@emits R G P Pe) (call_val_fn ext s a m k t).
Proof.
  intros He w. unfold call_val_fn. destruct val_fn as [err p].
  exists [ValFn s t err]. split; [reflexivity | now constructor].
Qed.

(** Decomposes a computation along its binds, loops and branches. *)
Ltac frame_walk refl trans prim :=
  repeat first
    [ progress intros
    | apply (frame_ret refl)
    | apply (frame_lift refl)
    | apply (frame_bind trans)
    | apply (frame_for_each refl trans)
    | prim
    | match goal with
      | |- frame _ (match ?x with _ => _ end) => destruct x
      end ].

Ltac store_walk :=
  frame_walk (@same_store_refl R G P) (@same_store_trans R G P)
    ltac:(first [ apply store_emit | apply store_with_rng
                | apply store_minibatches | apply store_call_train_fn
                | apply store_call_val_fn
                | apply store_get_all_param_values ]).

Ltac emits_walk Pe :=
  frame_walk (@emits_refl R G P Pe) (@emits_trans R G P Pe)
    ltac:(first [ apply emits_emit; exact I
                | apply emits_with_rng | apply emits_minibatches
                | apply emits_write_file
                | apply emits_get_all_param_values
                | apply emits_call_train_fn; intros; exact I
                | apply emits_call_val_fn; intros; exact I ]).

Lemma train_phase_store c : frame (@same_store R G P) (train_phase ext c).
Proof. unfold train_phase, train_step. store_walk. Qed.

Lemma validate_phase_store c :
  frame (@same_store R G P) (validate_phase ext c).
Proof. unfold validate_phase, validate_step. store_walk. Qed.

Lemma test_phase_store c : frame (@same_store R G P) (test_phase ext c).
Proof. unfold test_phase, test_step, psnr_step. store_walk. Qed.

Lemma print_summary_store c e a b a' b' t :
  frame (@same_store R G P) (@print_summary R G P c e a b a' b' t).
Proof. unfold print_summary. store_walk. Qed.

Lemma train_phase_emits c :
  frame (@emits R G P (@is_train_fn R)) (train_phase ext c).
Proof. unfold train_phase, train_step. emits_walk (@is_train_fn R). Qed.

Lemma validate_phase_emits c :
  frame (@emits R G P (@is_val_fn R Validate)) (validate_phase ext c).
Proof.
  unfold validate_phase, validate_step. emits_walk (@is_val_fn R Validate).
Qed.

Lemma test_phase_emits c :
  frame (@emits R G P (@is_test_event R)) (test_phase ext c).
Proof.
  unfold test_phase, test_step, psnr_step. emits_walk (@is_test_event R).
Qed.

Lemma print_summary_emits c e a b a' b' t :
  frame (@emits R G P (@is_print R)) (@print_summary R G P c e a b a' b' t).
Proof. unfold print_summary. emits_walk (@is_print R). Qed.

Lemma checkpoint_emits c e vs :
  frame (@emits R G P (@is_print R)) (@checkpoint R G P c e vs).
Proof. unfold checkpoint, save_vis. emits_walk (@is_print R). Qed.

(** *** Checkpointing *)

Lemma save_vis_run (i : Z) (v : vis_entry R) (w : world R G P) :
  exists files,
    save_vis i v w
    = (inr (i + 1), World (rng w) (net w) (store w ++ files) (trace w)).
Proof.
  destruct v as [[[im_i pred_i] und_i] mask_i].
  unfold save_vis, bind, write_file, ret. simpl.
  eexists. rewrite <- app_assoc. reflexivity.
Qed.

Lemma save_vis_loop (vs : list (vis_entry R)) :
  forall (i : Z) (w : world R G P),
  exists files,
    for_each (@save_vis R G P) vs i w
    = (inr (i + Z.of_nat (length vs)),
       World (rng w) (net w) (store w ++ files) (trace w)).
Proof.
  induction vs as [|v vs IH]; intros i w.
  - exists []. simpl. unfold ret. rewrite Z.add_0_r, app_nil_r.
    now destruct w.
  - destruct (save_vis_run i v w) as [f1 Hstep].
    destruct (IH (i + 1)
                 (World (rng w) (net w) (store w ++ f1) (trace w)))
      as [f2 Hrun].
    exists (f1 ++ f2). simpl for_each. unfold bind.
    rewrite Hstep, Hrun. cbn [rng net store trace].
    change (length (v :: vs)) with (S (length vs)).
    f_equal; [f_equal; lia | now rewrite <- app_assoc].
Qed.

(** With [--savefig] on, the block writes the parameters of the network
    at every epoch of the cadence and at every milestone epoch. *)
Lemma checkpoint_saves_params (c : config R) (epoch : Z)
      (vs : list (vis_entry R)) (w : world R G P) :
  save_fig c = true ->
  epoch mod save_every = 0 \/ In epoch [1; 2; num_epoch c - 1] ->
  exists files,
    store (snd (checkpoint c epoch vs w))
    = store w ++ files ++ [(ParamFile model_name epoch, ParamValues (net w))].
Proof.
  intros Hfig Hwhen. unfold checkpoint. rewrite Hfig.
  replace ((epoch mod save_every =? 0)
           || existsb (Z.eqb epoch) [1; 2; num_epoch c - 1]) with true.
  - change (true && true) with true. cbv iota. unfold bind at 1.
    destruct (save_vis_loop vs 0 w) as [files Hrun]. rewrite Hrun.
    exists files. simpl. now rewrite <- app_assoc.
  - symmetry. apply orb_true_iff. destruct Hwhen as [H|H].
    + left. now apply Z.eqb_eq.
    + right. apply existsb_exists. exists epoch. split; [assumption|].
      apply Z.eqb_refl.
Qed.

(** C1 (the code departs from the claim): the whole block under
    [# save the model] is guarded by [save_fig].  Without [--savefig] no
    epoch writes anything to the artifact store, the model parameters
    included, whatever the epoch index: multiples of [save_every] and
    milestone epochs are no exception. *)
Theorem no_checkpoint_without_savefig
        (ne bsz : Z) (iv : spec_float) (tr va te : list (image R))
        (epoch : Z) (w : world R G P) :
  store (snd (run_epoch ext (Config ne bsz iv false tr va te) epoch w))
  = store w.
Proof.
  revert w. change (frame (@same_store R G P)
                      (run_epoch ext (Config ne bsz iv false tr va te) epoch)).
  unfold run_epoch.
  apply (frame_bind (@same_store_trans R G P));
    [apply train_phase_store | intros x1].
  apply (frame_bind (@same_store_trans R G P));
    [apply validate_phase_store | intros x2].
  apply (frame_bind (@same_store_trans R G P));
    [apply test_phase_store | intros x3].
  apply (frame_bind (@same_store_trans R G P));
    [apply print_summary_store | intros x4].
  unfold checkpoint. simpl. apply (frame_ret (@same_store_refl R G P)).
Qed.

(** *** The three loops *)

Lemma train_step_run (c : config R) (acc : pynum * Z)
      (im : list (image R)) (w : world R G P) :
  exists err w',
    train_step ext c acc im w
    = (inr (py_add (fst acc) err, snd acc + 1), w')
    /\ trace w' = trace w ++ [TrainFn (to_lasagne_format im) err].
Proof.
  unfold train_step, bind, with_rng, prep_input.
  destruct cartesian_mask as [mask g'].
  destruct undersample as [im_und k_und]. simpl.
  unfold call_train_fn. simpl. destruct train_fn as [err p'].
  eexists; eexists; split; reflexivity.
Qed.

Lemma train_loop (c : config R) (bs : list (list (image R))) :
  forall (acc : pynum * Z) (w : world R G P),
  exists err w' evs,
    for_each (train_step ext c) bs acc w
    = (inr (err, snd acc + Z.of_nat (length bs)), w')
    /\ trace w' = trace w ++ evs
    /\ pick (@train_gnd R) evs = map (@to_lasagne_format R) bs
    /\ (bs = [] -> err = fst acc).
Proof.
  induction bs as [|im bs IH]; intros [a n] w.
  - exists a, w, []. simpl. unfold ret. rewrite Z.add_0_r, app_nil_r.
    repeat split; reflexivity.
  - destruct (train_step_run c (a, n) im w) as (err & w1 & Hstep & Htr).
    destruct (IH (py_add a err, n + 1) w1)
      as (err' & w' & evs & Hrun & Htr' & Hpick & _).
    exists err', w', (TrainFn (to_lasagne_format im) err :: evs).
    simpl fst in Hstep, Hrun; simpl snd in Hstep, Hrun.
    simpl for_each. unfold bind. rewrite Hstep, Hrun. simpl fst; simpl snd.
    change (length (im :: bs)) with (S (length bs)).
    repeat split.
    + replace (n + Z.of_nat (S (length bs)))
        with (n + 1 + Z.of_nat (length bs)) by lia.
      reflexivity.
    + rewrite Htr', Htr, <- app_assoc. reflexivity.
    + simpl. now rewrite <- Hpick.
    + discriminate.
Qed.

Lemma validate_step_run (c : config R) (acc : pynum * Z)
      (im : list (image R)) (w : world R G P) :
  exists err w',
    validate_step ext c acc im w
    = (inr (py_add (fst acc) err, snd acc + 1), w')
    /\ trace w' = trace w ++ [ValFn Validate (to_lasagne_format im) err].
Proof.
  unfold validate_step, bind, with_rng, prep_input.
  destruct cartesian_mask as [mask g'].
  destruct undersample as [im_und k_und]. simpl.
  unfold call_val_fn. simpl. destruct val_fn as [err pred].
  eexists; eexists; split; reflexivity.
Qed.

Lemma validate_loop (c : config R) (bs : list (list (image R))) :
  forall (acc : pynum * Z) (w : world R G P),
  exists err w' evs,
    for_each (validate_step ext c) bs acc w
    = (inr (err, snd acc + Z.of_nat (length bs)), w')
    /\ trace w' = trace w ++ evs
    /\ pick (@val_gnd R Validate) evs = map (@to_lasagne_format R) bs
    /\ (bs = [] -> err = fst acc).
Proof.
  induction bs as [|im bs IH]; intros [a n] w.
  - exists a, w, []. simpl. unfold ret. rewrite Z.add_0_r, app_nil_r.
    repeat split; reflexivity.
  - destruct (validate_step_run c (a, n) im w) as (err & w1 & Hstep & Htr).
    destruct (IH (py_add a err, n + 1) w1)
      as (err' & w' & evs & Hrun & Htr' & Hpick & _).
    exists err', w', (ValFn Validate (to_lasagne_format im) err :: evs).
    simpl fst in Hstep, Hrun; simpl snd in Hstep, Hrun.
    simpl for_each. unfold bind. rewrite Hstep, Hrun. simpl fst; simpl snd.
    change (length (im :: bs)) with (S (length bs)).
    repeat split.
    + replace (n + Z.of_nat (S (length bs)))
        with (n + 1 + Z.of_nat (length bs)) by lia.
      reflexivity.
    + rewrite Htr', Htr, <- app_assoc. reflexivity.
    + simpl. now rewrite <- Hpick.
    + discriminate.
Qed.

(** The PSNR pair of one element of
    [zip(im, from(im_und), from(pred))]. *)
Definition psnr_of (x : image R * (image R * image R))
  : npfloat * npfloat :=
  (complex_psnr ext (fst x) (fst (snd x)),
   complex_psnr ext (fst x) (snd (snd x))).

Definition psnr_events (zs : list (image R * (image R * image R)))
  : list (event R) :=
  map (fun x => Psnr (fst (psnr_of x)) (snd (psnr_of x))) zs.

Lemma pick_psnr_events zs :
  pick (@psnr_term R) (psnr_events zs) = map psnr_of zs.
Proof.
  induction zs as [|z zs IH]; [reflexivity|].
  unfold pick in *. simpl. rewrite IH. reflexivity.
Qed.

Lemma pick_val_psnr_events s zs :
  pick (@val_gnd R s) (psnr_events zs) = [].
Proof.
  induction zs as [|z zs IH]; [reflexivity|].
  unfold pick in *. simpl. now destruct s.
Qed.

Lemma psnr_step_run (acc : pynum * pynum)
      (x : image R * (image R * image R)) (w : world R G P) :
  psnr_step ext acc x w
  = (inr (np_add (fst acc) (fst (psnr_of x)),
          np_add (snd acc) (snd (psnr_of x))),
     World (rng w) (net w) (store w) (trace w ++ psnr_events [x])).
Proof. destruct x as [im_i [und_i pred_i]]. reflexivity. Qed.

Lemma psnr_loop zs :
  forall (acc : pynum * pynum) (w : world R G P),
    for_each (psnr_step ext) zs acc w
    = (inr (fold_left np_add (map (fun x => fst (psnr_of x)) zs) (fst acc),
            fold_left np_add (map (fun x => snd (psnr_of x)) zs) (snd acc)),
       World (rng w) (net w) (store w) (trace w ++ psnr_events zs)).
Proof.
  induction zs as [|z zs IH]; intros [b t] w.
  - simpl. unfold ret. rewrite app_nil_r. now destruct w.
  - simpl for_each. unfold bind. rewrite psnr_step_run, IH.
    cbn [rng net store trace fst snd map fold_left].
    rewrite <- app_assoc. reflexivity.
Qed.

(** The undersampler and the network return as many images as they are
    given. *)
Definition batch_preserving : Prop :=
  (forall im mask, length (fst (undersample ext im mask)) = length im)
  /\ (forall p a m k t, length (snd (val_fn ext p a m k t)) = length a).

(** A computation made of [lift] and [ret] leaves the world as it is. *)
Lemma vis_part_world (c : config R) (acc : test_acc R)
      (im : list (image R)) (pred im_und : tensor R) (mask : tensor Z)
      (n : Z) (w : world R G P) :
  snd ((if save_fig c && (n mod save_every =? 0)
        then
          bind (lift (index0 im)) (fun a =>
          bind (lift (index0 (from_lasagne_format pred))) (fun b =>
          bind (lift (index0 (from_lasagne_format im_und))) (fun u =>
          bind (lift (index0 (from_lasagne_format_mask mask))) (fun m =>
          ret (vis acc ++ [(a, b, u, m)])))))
        else ret (vis acc)) w) = w.
Proof.
  destruct (save_fig c && (n mod save_every =? 0)); [|reflexivity].
  unfold bind, lift, ret.
  destruct (index0 im); [reflexivity|].
  destruct (index0 (from_lasagne_format pred)); [reflexivity|].
  destruct (index0 (from_lasagne_format im_und)); [reflexivity|].
  destruct (index0 (from_lasagne_format_mask mask)); reflexivity.
Qed.

Lemma vis_part_total (c : config R) (acc : test_acc R)
      (im : list (image R)) (pred im_und : tensor R) (mask : tensor Z)
      (n : Z) (w : world R G P) :
  im <> [] -> pred <> [] -> im_und <> [] -> mask <> [] ->
  exists vs,
    fst ((if save_fig c && (n mod save_every =? 0)
          then
            bind (lift (index0 im)) (fun a =>
            bind (lift (index0 (from_lasagne_format pred))) (fun b =>
            bind (lift (index0 (from_lasagne_format im_und))) (fun u =>
            bind (lift (index0 (from_lasagne_format_mask mask))) (fun m =>
            ret (vis acc ++ [(a, b, u, m)])))))
          else ret (vis acc)) w) = inr vs.
Proof.
  intros H1 H2 H3 H4.
  destruct (save_fig c && (n mod save_every =? 0));
    [|eexists; reflexivity].
  destruct im; [congruence|]. destruct pred; [congruence|].
  destruct im_und; [congruence|]. destruct mask; [congruence|].
  eexists. reflexivity.
Qed.

Lemma test_step_run (c : config R) (acc : test_acc R)
      (im : list (image R)) (w : world R G P) :
  exists err zs r w',
    test_step ext c acc im w = (r, w')
    /\ trace w' = trace w ++ ValFn Test (to_lasagne_format im) err
                               :: psnr_events zs
    /\ (forall acc', r = inr acc' ->
          test_err acc' = py_add (test_err acc) err
          /\ base_psnr acc'
             = fold_left np_add (map (fun x => fst (psnr_of x)) zs)
                         (base_psnr acc)
          /\ test_psnr acc'
             = fold_left np_add (map (fun x => snd (psnr_of x)) zs)
                         (test_psnr acc)
          /\ test_batches acc' = test_batches acc + 1)
    /\ (batch_preserving -> im <> [] ->
        length zs = length im /\ exists acc', r = inr acc').
Proof.
  unfold test_step. unfold bind at 1. unfold with_rng, prep_input.
  destruct (cartesian_mask _ _ _ _ _ _ _ _ _ _) as [mask g'] eqn:Emask.
  destruct (undersample ext im mask) as [im_und k_und] eqn:Eund.
  cbv beta iota. unfold bind at 1. unfold call_val_fn.
  cbn [rng net store trace].
  destruct (val_fn ext _ _ _ _ _) as [err pred] eqn:Eval.
  cbv beta iota. unfold bind at 1. rewrite psnr_loop.
  cbv beta iota. cbn [rng net store trace fst snd].
  unfold bind at 1.
  set (zs := combine im (combine (from_lasagne_format (to_lasagne_format im_und))
                                 (from_lasagne_format pred))).
  set (w2 := World g' (net w) (store w) _).
  pose proof (vis_part_world c acc im pred (to_lasagne_format im_und)
                (to_lasagne_format_mask mask) (test_batches acc + 1) w2)
    as Hw.
  pose proof (vis_part_total c acc (im := im) (pred := pred)
                (im_und := to_lasagne_format im_und)
                (mask := to_lasagne_format_mask mask)
                (test_batches acc + 1) w2) as Htot.
  assert (Hshape : batch_preserving -> im <> [] ->
                   length zs = length im /\ pred <> []
                   /\ to_lasagne_format im_und <> []
                   /\ to_lasagne_format_mask mask <> []).
  { intros [Hund Hnet] Him.
    pose proof (Hund im mask) as H1. rewrite Eund in H1. simpl in H1.
    pose proof (Hnet (net w) (to_lasagne_format im_und)
                     (to_lasagne_format_mask mask)
                     (to_lasagne_format k_und) (to_lasagne_format im))
      as H2.
    rewrite Eval in H2. simpl in H2.
    rewrite length_to_lasagne_format in H2.
    pose proof (length_cartesian_mask (line_draw ext) (high_pick ext)
                  (rng_advance ext) (rng w) (length im)
                  (length (hd [] im)) (length (hd [] (hd [] im)))
                  (gauss_ivar c) false true true 8) as H3.
    fold (shape_of im) in H3. rewrite Emask in H3. simpl in H3.
    assert (0 < length im)%nat by (destruct im; [congruence | simpl; lia]).
    split; [|split; [|split]].
    - subst zs. rewrite from_to_lasagne_format.
      rewrite !length_combine, length_from_lasagne_format.
      unfold image, complex, tensor, plane in *. lia.
    - intros ->. simpl in H2.
      unfold image, complex, tensor, plane in *. lia.
    - intros E. apply (f_equal (@length _)) in E.
      rewrite length_to_lasagne_format in E. simpl in E.
      unfold image, complex, tensor, plane in *. lia.
    - intros E. apply (f_equal (@length _)) in E.
      unfold to_lasagne_format_mask in E. rewrite length_map in E.
      simpl in E. unfold image, complex, tensor, plane in *. lia. }
  match goal with
  | |- context [let (_, _) := ?t in _] => destruct t as [rv wv] eqn:EV
  end.
  simpl in Hw. subst wv.
  exists err, zs.
  destruct rv as [e|vs].
  - exists (inl e), w2. split; [reflexivity|]. split; [|split].
    + subst w2. cbn [trace]. now rewrite <- app_assoc.
    + intros acc' Hacc. discriminate.
    + intros HB Him. destruct (Hshape HB Him) as (Hlen & Hp & Hu & Hm).
      split; [assumption|].
      destruct (Htot Him Hp Hu Hm) as [vs Hvs]. simpl in Hvs. discriminate.
  - eexists; exists w2. split; [reflexivity|]. split; [|split].
    + subst w2. cbn [trace]. now rewrite <- app_assoc.
    + intros acc' Hacc. injection Hacc as <-. repeat split.
    + intros HB Him. destruct (Hshape HB Him) as (Hlen & _).
      split; [assumption|]. eexists. reflexivity.
Qed.

Lemma pick_test_step_events (s : split) (g : tensor R) (err : Q) zs evs :
  pick (@val_gnd R s) (ValFn s g err :: psnr_events zs ++ evs)
  = g :: pick (@val_gnd R s) evs.
Proof.
  change (ValFn s g err :: psnr_events zs ++ evs)
    with ([ValFn s g err] ++ psnr_events zs ++ evs).
  rewrite !pick_app, pick_val_psnr_events. now destruct s.
Qed.

Lemma pick_psnr_test_step_events (s : split) (g : tensor R) (err : Q) zs evs :
  pick (@psnr_term R) (ValFn s g err :: psnr_events zs ++ evs)
  = map psnr_of zs ++ pick (@psnr_term R) evs.
Proof.
  change (ValFn s g err :: psnr_events zs ++ evs)
    with ([ValFn s g err] ++ psnr_events zs ++ evs).
  now rewrite !pick_app, pick_psnr_events.
Qed.

(** The test loop.  Whether it completes or is cut short by an exception,
    [val_fn] has been called on a prefix of the batches, in order; when it
    completes, it has been called on all of them, and the two PSNR
    accumulators hold the sums of the PSNR pairs computed. *)
Lemma test_loop (c : config R) (bs : list (list (image R))) :
  forall (acc : test_acc R) (w : world R G P),
  exists evs r w',
    for_each (test_step ext c) bs acc w = (r, w')
    /\ trace w' = trace w ++ evs
    /\ (exists k,
          pick (@val_gnd R Test) evs
          = map (@to_lasagne_format R) (firstn k bs)
          /\ (forall acc', r = inr acc' -> k = length bs))
    /\ (forall acc', r = inr acc' ->
          test_batches acc' = test_batches acc + Z.of_nat (length bs)
          /\ base_psnr acc'
             = fold_left np_add (map fst (pick (@psnr_term R) evs))
                         (base_psnr acc)
          /\ test_psnr acc'
             = fold_left np_add (map snd (pick (@psnr_term R) evs))
                         (test_psnr acc)
          /\ (bs = [] -> acc' = acc))
    /\ (batch_preserving -> Forall (fun b => b <> []) bs ->
        length (pick (@psnr_term R) evs) = length (concat bs)
        /\ exists acc', r = inr acc').
Proof.
  induction bs as [|im bs IH]; intros acc w.
  - exists [], (inr acc), w. simpl. unfold ret.
    split; [reflexivity|]. split; [now rewrite app_nil_r|].
    split; [exists 0%nat; split; [reflexivity | reflexivity]|].
    split.
    + intros acc' Hacc. injection Hacc as <-.
      rewrite Z.add_0_r. repeat split; reflexivity.
    + intros _ _. split; [reflexivity | now exists acc].
  - destruct (test_step_run c acc im w)
      as (err & zs & r1 & w1 & Hstep & Htr & Hacc & Hok).
    simpl for_each. unfold bind. rewrite Hstep.
    destruct r1 as [e|acc1].
    + exists (ValFn Test (to_lasagne_format im) err :: psnr_events zs ++ []),
        (inl e), w1.
      split; [reflexivity|]. split; [now rewrite app_nil_r|].
      split; [exists 1%nat; split;
              [rewrite pick_test_step_events; reflexivity
              | intros acc' H; discriminate]|].
      split; [intros acc' H; discriminate|].
      intros HB Hne. inversion Hne as [|? ? Him Hbs]; subst.
      destruct (Hok HB Him) as [_ [acc' H]]. discriminate.
    + destruct (IH acc1 w1)
        as (evs & r & w' & Hrun & Htr' & (k & Hk & Hkfull) & Hacc' & Hok').
      rewrite Hrun.
      exists (ValFn Test (to_lasagne_format im) err :: psnr_events zs ++ evs),
        r, w'.
      destruct (Hacc acc1 eq_refl) as (_ & Hb1 & Ht1 & Hn1).
      split; [reflexivity|].
      split; [rewrite Htr', Htr, <- app_assoc; reflexivity|].
      split; [exists (S k); split;
              [rewrite pick_test_step_events, Hk; reflexivity
              | intros acc' H; simpl; f_equal; eauto]|].
      split.
      * intros acc' H. destruct (Hacc' acc' H) as (Hn & Hb & Ht & _).
        rewrite pick_psnr_test_step_events, !map_app, !fold_left_app.
        rewrite !map_map, <- Hb1, <- Ht1.
        change (length (im :: bs)) with (S (length bs)).
        repeat split; try assumption; [lia | discriminate].
      * intros HB Hne. inversion Hne as [|? ? Him Hbs]; subst.
        destruct (Hok HB Him) as [Hlen _].
        destruct (Hok' HB Hbs) as [Hlen' Hex].
        split; [|assumption].
        rewrite pick_psnr_test_step_events. simpl concat.
        rewrite !length_app, length_map. lia.
Qed.

(** *** The phases of an epoch *)

Lemma minibatches_run (data : list (image R)) (bsize : Z) (shuffle : bool)
      (w : world R G P) :
  1 <= bsize ->
  minibatches ext data bsize shuffle w
  = (inr (batches_of (length data)
                     (fst (drawn (np_random_permutation ext) (rng w) data
                                 shuffle))
                     bsize),
     World (snd (drawn (np_random_permutation ext) (rng w) data shuffle))
           (net w) (store w) (trace w)).
Proof.
  intros Hb. unfold minibatches.
  now rewrite iterate_minibatch_closed by assumption.
Qed.

Lemma train_phase_run (c : config R) (w : world R G P) :
  1 <= batch_size c ->
  exists err w1 evs,
    train_phase ext c w
    = (inr (err, ceil_div (Z.of_nat (length (train c))) (batch_size c)), w1)
    /\ trace w1 = trace w ++ evs
    /\ pick (@train_gnd R) evs
       = map (@to_lasagne_format R)
             (batches_of (length (train c))
                         (fst (np_random_permutation ext (rng w) (train c)))
                         (batch_size c))
    /\ (train c = [] -> err = PyInt 0).
Proof.
  intros Hb. unfold train_phase, bind.
  rewrite minibatches_run by assumption. simpl drawn.
  set (bs := batches_of _ _ _).
  set (w0 := World _ _ _ _).
  destruct (train_loop c bs (PyInt 0, 0) w0)
    as (err & w1 & evs & Hrun & Htr & Hpick & Hnil).
  exists err, w1, evs. rewrite Hrun. simpl snd.
  subst bs. rewrite length_batches_of by assumption.
  repeat split; try assumption.
  intros Hempty. apply Hnil. rewrite Hempty.
  now apply batches_of_zero.
Qed.

Lemma validate_phase_run (c : config R) (w : world R G P) :
  1 <= batch_size c ->
  exists err w1 evs,
    validate_phase ext c w
    = (inr (err, ceil_div (Z.of_nat (length (validate c))) (batch_size c)),
       w1)
    /\ trace w1 = trace w ++ evs
    /\ pick (@val_gnd R Validate) evs
       = map (@to_lasagne_format R)
             (batches_of (length (validate c)) (validate c) (batch_size c))
    /\ (validate c = [] -> err = PyInt 0).
Proof.
  intros Hb. unfold validate_phase, bind.
  rewrite minibatches_run by assumption. simpl drawn.
  set (bs := batches_of _ _ _).
  set (w0 := World _ _ _ _).
  destruct (validate_loop c bs (PyInt 0, 0) w0)
    as (err & w1 & evs & Hrun & Htr & Hpick & Hnil).
  exists err, w1, evs. rewrite Hrun. simpl snd.
  subst bs. rewrite length_batches_of by assumption.
  repeat split; try assumption.
  intros Hempty. apply Hnil. rewrite Hempty.
  now apply batches_of_zero.
Qed.

Lemma test_phase_run (c : config R) (w : world R G P) :
  1 <= batch_size c ->
  exists evs r w1,
    test_phase ext c w = (r, w1)
    /\ trace w1 = trace w ++ evs
    /\ (exists k,
          pick (@val_gnd R Test) evs
          = map (@to_lasagne_format R)
                (firstn k (batches_of (length (test c)) (test c)
                                      (batch_size c)))
          /\ (forall te, r = inr te ->
                         k = length (batches_of (length (test c)) (test c)
                                                (batch_size c))))
    /\ (forall te, r = inr te ->
          test_batches te
          = ceil_div (Z.of_nat (length (test c))) (batch_size c)
          /\ base_psnr te
             = fold_left np_add (map fst (pick (@psnr_term R) evs)) (PyInt 0)
          /\ test_psnr te
             = fold_left np_add (map snd (pick (@psnr_term R) evs)) (PyInt 0)
          /\ (test c = [] -> te = TestAcc [] (PyInt 0) (PyInt 0) (PyInt 0) 0))
    /\ (batch_preserving ->
        length (pick (@psnr_term R) evs) = length (test c)
        /\ exists te, r = inr te).
Proof.
  intros Hb. unfold test_phase, bind.
  rewrite minibatches_run by assumption. simpl drawn.
  set (w0 := World _ _ _ _). simpl fst.
  destruct (test_loop c (batches_of (length (test c)) (test c) (batch_size c))
                      (TestAcc [] (PyInt 0) (PyInt 0) (PyInt 0) 0) w0)
    as (evs & r & w1 & Hrun & Htr & Hk & Hacc & Hok).
  exists evs, r, w1. rewrite Hrun.
  split; [reflexivity|]. split; [assumption|]. split; [assumption|].
  split.
  - intros te Hte. destruct (Hacc te Hte) as (Hn & Hbp & Htp & Hnil).
    rewrite length_batches_of in Hn by assumption. simpl in Hn.
    repeat split; try assumption.
    intros Hempty. apply Hnil. rewrite Hempty.
    now apply batches_of_zero.
  - intros HB.
    destruct (Hok HB (batches_nonempty (test c) Hb)) as [Hlen Hex].
    rewrite batches_cover in Hlen by assumption. now split.
Qed.

(** *** The summary *)

(** The world after some events were appended to its trace. *)
Definition logged (w : world R G P) (evs : list (event R)) : world R G P :=
  World (rng w) (net w) (store w) (trace w ++ evs).

Lemma py_truediv_nonzero (a : pynum) (d : Z) :
  d <> 0 -> exists v, py_truediv a d = inr v.
Proof.
  intros Hd. unfold py_truediv.
  destruct a; destruct (Z.eqb_spec d 0); try contradiction; eauto.
Qed.

Lemma print_summary_eq (c : config R) (e : Z) (terr : pynum) (tb : Z)
      (verr : pynum) (vb : Z) (te : test_acc R) (w : world R G P) :
  print_summary c e terr tb verr vb te w =
  let h := Print (EpochHeader (e + 1) (num_epoch c + 1)) in
  match py_truediv terr (Z.max 1 tb) with
  | inl x => (inl x, logged w [h])
  | inr v1 =>
    match py_truediv verr vb with
    | inl x => (inl x, logged w [h; Print (TrainingLoss v1)])
    | inr v2 =>
      match py_truediv (test_err te) (test_batches te) with
      | inl x =>
          (inl x, logged w [h; Print (TrainingLoss v1);
                            Print (ValidationLoss v2)])
      | inr v3 =>
        match py_truediv (base_psnr te)
                         (test_batches te * batch_size c) with
        | inl x =>
            (inl x, logged w [h; Print (TrainingLoss v1);
                              Print (ValidationLoss v2);
                              Print (TestLoss v3)])
        | inr v4 =>
          match py_truediv (test_psnr te)
                           (test_batches te * batch_size c) with
          | inl x =>
              (inl x, logged w [h; Print (TrainingLoss v1);
                                Print (ValidationLoss v2);
                                Print (TestLoss v3); Print (BasePSNR v4)])
          | inr v5 =>
              (inr tt, logged w [h; Print (TrainingLoss v1);
                                 Print (ValidationLoss v2);
                                 Print (TestLoss v3); Print (BasePSNR v4);
                                 Print (TestPSNR v5)])
          end
        end
      end
    end
  end.
Proof.
  unfold print_summary, bind, emit, lift, logged. cbn [rng net store trace].
  destruct (py_truediv terr (Z.max 1 tb)); [reflexivity|].
  destruct (py_truediv verr vb);
    [rewrite <- !app_assoc; reflexivity|].
  destruct (py_truediv (test_err te) (test_batches te));
    [rewrite <- !app_assoc; reflexivity|].
  destruct (py_truediv (base_psnr te) (test_batches te * batch_size c));
    [rewrite <- !app_assoc; reflexivity|].
  destruct (py_truediv (test_psnr te) (test_batches te * batch_size c));
    rewrite <- !app_assoc; reflexivity.
Qed.

Lemma py_truediv_error (a : pynum) (d : Z) (x : Py.exn) :
  py_truediv a d = inl x -> x = Py.ZeroDivisionError.
Proof.
  unfold py_truediv.
  destruct a; destruct (d =? 0); intros H; now inversion H.
Qed.

(** Runs the three loops of an epoch started in [w], naming what each
    leaves behind. *)
Ltac epoch_phases c w Hb :=
  let w1 := fresh "w1" in
  let w2 := fresh "w2" in
  let w3 := fresh "w3" in
  destruct (train_phase_run c w Hb)
    as (terr & w1 & e1 & Htrain & Htr1 & Hp1 & Hz1);
  destruct (validate_phase_run c w1 Hb)
    as (verr & w2 & e2 & Hval & Htr2 & Hp2 & Hz2);
  destruct (test_phase_run c w2 Hb)
    as (e3 & r3 & w3 & Htest & Htr3 & Hk3 & Hacc3 & Hok3);
  pose proof (train_phase_emits c w) as Fe1;
  rewrite Htrain in Fe1; apply (emits_unique e1 Htr1) in Fe1;
  pose proof (validate_phase_emits c w1) as Fe2;
  rewrite Hval in Fe2; apply (emits_unique e2 Htr2) in Fe2;
  pose proof (test_phase_emits c w2) as Fe3;
  rewrite Htest in Fe3; apply (emits_unique e3 Htr3) in Fe3.

Lemma run_epoch_eq (c : config R) (e : Z) (w w1 w2 w3 : world R G P)
      (tr va : pynum * Z) (r3 : Py.result (test_acc R)) :
  train_phase ext c w = (inr tr, w1) ->
  validate_phase ext c w1 = (inr va, w2) ->
  test_phase ext c w2 = (r3, w3) ->
  run_epoch ext c e w
  = match r3 with
    | inl x => (inl x, w3)
    | inr te =>
        bind (print_summary c e (fst tr) (snd tr) (fst va) (snd va) te)
             (fun _ => checkpoint c e (vis te)) w3
    end.
Proof.
  intros H1 H2 H3. unfold run_epoch.
  unfold bind at 1. rewrite H1. cbv beta iota.
  unfold bind at 1. rewrite H2. cbv beta iota.
  unfold bind at 1. rewrite H3. reflexivity.
Qed.

(** Replaces the three loops of [run_epoch] by what they were found to
    return. *)
Ltac epoch_unfold Htrain Hval Htest :=
  rewrite !(@run_epoch_eq _ _ _ _ _ _ _ _ _ Htrain Hval Htest);
  cbn [fst snd].

(** C2 (the code departs from the claim): only the training loss is
    divided by [max(1, train_batches)].  With an empty training split the
    epoch still prints a training loss, [0 / 1]; with an empty validation
    split or an empty test split it ends in [ZeroDivisionError], raised by
    [validate_err / validate_batches] or [test_err / test_batches]. *)
Theorem zero_batch_split_raises (c : config R) (e : Z) (w : world R G P) :
  1 <= batch_size c -> batch_preserving ->
  (train c = [] ->
   exists evs,
     trace (snd (run_epoch ext c e w)) = trace w ++ evs
     /\ In (Print (TrainingLoss (PyFloat (inject_Z 0 / inject_Z 1)))) evs)
  /\ (validate c = [] \/ test c = [] ->
      fst (run_epoch ext c e w) = inl Py.ZeroDivisionError).
Proof.
  intros Hb HB. epoch_phases c w Hb.
  destruct (Hok3 HB) as [_ [te ->]].
  destruct (Hacc3 te eq_refl) as (Hn3 & _ & _ & Hz3).
  split; intros Hempty; epoch_unfold Htrain Hval Htest;
    unfold bind at 1; rewrite print_summary_eq; cbv zeta;
    simpl fst; simpl snd.
  - rewrite (Hz1 Hempty), Hempty. simpl length.
    rewrite ceil_div_zero by lia. simpl py_truediv.
    pose proof (checkpoint_emits c e (vis te)) as Fck.
    set (line1 := Print (TrainingLoss _)).
    set (h := Print (EpochHeader _ _)).
    assert (Hgrow : forall (r : Py.result unit) (evs : list (event R)),
               In line1 evs ->
               exists evs',
                 trace (snd (match r with
                             | inl x => (inl x, logged w3 evs)
                             | inr _ => checkpoint c e (vis te)
                                                   (logged w3 evs)
                             end))
                 = trace w ++ evs' /\ In line1 evs').
    { intros r evs Hin.
      destruct r as [x|u]; cbv beta iota.
      - exists (e1 ++ e2 ++ e3 ++ evs). split.
        + unfold logged. cbn [snd trace].
          rewrite Htr3, Htr2, Htr1, <- !app_assoc. reflexivity.
        + rewrite !in_app_iff. tauto.
      - destruct (Fck (logged w3 evs)) as [e5 [H5 _]].
        exists (e1 ++ e2 ++ e3 ++ evs ++ e5). split.
        + refine (eq_trans H5 _). unfold logged. cbn [trace].
          rewrite Htr3, Htr2, Htr1, <- !app_assoc. reflexivity.
        + rewrite !in_app_iff. tauto. }
    destruct (py_truediv verr _) as [x|v2];
      [apply (Hgrow (inl x)); simpl; tauto|].
    destruct (py_truediv (test_err te) _) as [x|v3];
      [apply (Hgrow (inl x)); simpl; tauto|].
    destruct (py_truediv (base_psnr te) _) as [x|v4];
      [apply (Hgrow (inl x)); simpl; tauto|].
    destruct (py_truediv (test_psnr te) _) as [x|v5];
      [apply (Hgrow (inl x)); simpl; tauto|].
    apply (Hgrow (inr tt)). simpl. tauto.
  - destruct (py_truediv_nonzero terr (d := Z.max 1
                (ceil_div (Z.of_nat (length (train c))) (batch_size c)))
                ltac:(lia)) as [v1 ->].
    destruct (py_truediv verr _) as [x|v2] eqn:Ev.
    + apply py_truediv_error in Ev. now subst x.
    + destruct Hempty as [Hempty|Hempty].
      * rewrite (Hz2 Hempty), Hempty in Ev. simpl length in Ev.
        rewrite ceil_div_zero in Ev by lia. discriminate.
      * rewrite (Hz3 Hempty). reflexivity.
Qed.

Lemma pick_none_of (Y : Type) (f : event R -> option Y)
      (Pe : event R -> Prop) (evs : list (event R)) :
  (forall e, Pe e -> f e = None) -> Forall Pe evs -> pick f evs = [].
Proof.
  intros Himp F. apply pick_none.
  apply Forall_impl with (P := Pe); assumption.
Qed.

(** Discharges [pick f evs = []] from the kind of the events of [evs]. *)
Ltac no_such_event F :=
  eapply pick_none_of; [|exact F];
  let ev := fresh "ev" in
  let Hev := fresh "Hev" in
  intros ev Hev; destruct ev as [? ?|[|] ? ?|? ?|?];
  try reflexivity; destruct Hev.

Lemma pick_map_round_trip (bs : list (list (image R))) :
  map (@from_lasagne_format R) (map (@to_lasagne_format R) bs) = bs.
Proof.
  rewrite map_map. rewrite <- (map_id bs) at 2.
  apply map_ext. apply from_to_lasagne_format.
Qed.

(** What follows the three loops: the summary and the checkpoint only
    print, and they are reached only if the test loop completed. *)
Lemma epoch_tail (c : config R) (e : Z) (terr : pynum) (tb : Z)
      (verr : pynum) (vb : Z) (r3 : Py.result (test_acc R))
      (w3 : world R G P) :
  exists e4,
    trace (snd (match r3 with
                | inl x => (inl x, w3)
                | inr te =>
                    bind (print_summary c e terr tb verr vb te)
                         (fun _ => checkpoint c e (vis te)) w3
                end)) = trace w3 ++ e4
    /\ Forall (@is_print R) e4
    /\ (fst (match r3 with
              | inl x => (inl x, w3)
              | inr te =>
                  bind (print_summary c e terr tb verr vb te)
                       (fun _ => checkpoint c e (vis te)) w3
              end) = inr tt -> exists te, r3 = inr te).
Proof.
  destruct r3 as [x|te].
  - exists []. simpl. rewrite app_nil_r.
    repeat split; [constructor | discriminate].
  - assert (F : frame (@emits R G P (@is_print R))
                      (bind (print_summary c e terr tb verr vb te)
                            (fun _ => checkpoint c e (vis te)))).
    { apply (frame_bind (@emits_trans R G P (@is_print R)));
        [apply print_summary_emits | intros; apply checkpoint_emits]. }
    destruct (F w3) as [e4 [H4 F4]].
    exists e4. repeat split; try assumption. intros _. now exists te.
Qed.

(** C3: for a batch size [B >= 1], [iterate_minibatch] yields
    [ceil(N / B)] batches; every batch but the last holds [B] elements,
    the last one holds [N mod B] when that is not zero, and the sizes add
    up to [N].  With 20 training images and [batch_size = 10] an epoch
    calls the training function exactly twice. *)
Theorem iterate_minibatch_partitions
        (c : config R) (e : Z) (w : world R G P) :
  (forall (A St : Type) (perm : St -> list A -> list A * St) (g : St)
          (data : list A) (bsize : Z) (shuffle : bool),
      (forall g' l, Permutation l (fst (perm g' l))) ->
      1 <= bsize ->
      exists batches,
        fst (iterate_minibatch perm g data bsize shuffle) = inr batches
        /\ Z.of_nat (length batches)
           = ceil_div (Z.of_nat (length data)) bsize
        /\ (forall k, (S k < length batches)%nat ->
                      Z.of_nat (length (nth k batches [])) = bsize)
        /\ (Z.of_nat (length data) mod bsize <> 0 ->
            Z.of_nat (length (last batches []))
            = Z.of_nat (length data) mod bsize)
        /\ Z.of_nat (list_sum (map (@length A) batches))
           = Z.of_nat (length data))
  /\ (length (train c) = 20%nat -> batch_size c = 10 ->
      exists evs,
        trace (snd (run_epoch ext c e w)) = trace w ++ evs
        /\ length (pick (@train_gnd R) evs) = 2%nat).
Proof.
  split.
  - intros A St perm g data bsize shuffle Hperm Hb.
    rewrite iterate_minibatch_closed by assumption.
    assert (Hlen : length (fst (drawn perm g data shuffle)) = length data).
    { unfold drawn. destruct shuffle; [|reflexivity].
      symmetry. apply Permutation_length, Hperm. }
    eexists. split; [reflexivity|]. rewrite <- Hlen.
    apply batches_partition. assumption.
  - intros Hn Hbs.
    assert (Hb : 1 <= batch_size c) by lia.
    epoch_phases c w Hb. epoch_unfold Htrain Hval Htest.
    simpl fst; simpl snd.
    match goal with
    | |- context [print_summary c e ?a ?b ?a' ?b'] =>
        destruct (epoch_tail c e a b a' b' r3 w3) as (e4 & Htr4 & Fe4 & _)
    end.
    exists (e1 ++ e2 ++ e3 ++ e4). split.
    + refine (eq_trans Htr4 _).
      rewrite Htr3, Htr2, Htr1, <- !app_assoc. reflexivity.
    + rewrite !pick_app, Hp1.
      replace (pick (@train_gnd R) e2) with (@nil (tensor R))
        by (symmetry; no_such_event Fe2).
      replace (pick (@train_gnd R) e3) with (@nil (tensor R))
        by (symmetry; no_such_event Fe3).
      replace (pick (@train_gnd R) e4) with (@nil (tensor R))
        by (symmetry; no_such_event Fe4).
      rewrite !app_nil_r, length_map.
      apply Nat2Z.inj. rewrite length_batches_of by assumption.
      rewrite Hn, Hbs. reflexivity.
Qed.

(** C4: without shuffling the batches of [iterate_minibatch], put end to
    end, are the input in its order, and the generator is not touched;
    with shuffling they are the permutation that [np.random.permutation]
    draws from the current generator state.  In an epoch the batches
    passed to the training function are such a permutation of the training
    split, drawn from the state the generator is in when the epoch starts;
    those passed to the evaluation function are the validation split in
    its order, then a prefix of the test split in its order, all of it
    when the epoch completes. *)
Theorem minibatch_order (c : config R) (e : Z) (w : world R G P) :
  (forall (A St : Type) (perm : St -> list A -> list A * St) (g : St)
          (data : list A) (bsize : Z),
      1 <= bsize ->
      (exists batches,
          iterate_minibatch perm g data bsize false = (inr batches, g)
          /\ concat batches = data)
      /\ ((forall g' l, Permutation l (fst (perm g' l))) ->
          exists batches,
            iterate_minibatch perm g data bsize true
            = (inr batches, snd (perm g data))
            /\ concat batches = fst (perm g data)
            /\ Permutation data (concat batches)))
  /\ (1 <= batch_size c ->
      (forall g l, Permutation l (fst (np_random_permutation ext g l))) ->
      exists evs,
        trace (snd (run_epoch ext c e w)) = trace w ++ evs
        /\ concat (map (@from_lasagne_format R) (pick (@train_gnd R) evs))
           = fst (np_random_permutation ext (rng w) (train c))
        /\ concat (map (@from_lasagne_format R)
                       (pick (@val_gnd R Validate) evs))
           = validate c
        /\ (exists k,
              map (@from_lasagne_format R) (pick (@val_gnd R Test) evs)
              = firstn k (batches_of (length (test c)) (test c)
                                     (batch_size c)))
        /\ (fst (run_epoch ext c e w) = inr tt ->
            concat (map (@from_lasagne_format R) (pick (@val_gnd R Test) evs))
            = test c)).
Proof.
  split.
  - intros A St perm g data bsize Hb. split.
    + rewrite iterate_minibatch_closed by assumption. simpl.
      eexists. split; [reflexivity|]. now apply batches_cover.
    + intros Hperm. rewrite iterate_minibatch_closed by assumption. simpl.
      eexists. split; [reflexivity|].
      rewrite (Permutation_length (Hperm g data)).
      rewrite batches_cover by assumption.
      split; [reflexivity | apply Hperm].
  - intros Hb Hperm. epoch_phases c w Hb.
    assert (Htail : exists e4,
               trace (snd (run_epoch ext c e w)) = trace w3 ++ e4
               /\ Forall (@is_print R) e4
               /\ (fst (run_epoch ext c e w) = inr tt ->
                   exists te, r3 = inr te)).
    { epoch_unfold Htrain Hval Htest. apply epoch_tail. }
    destruct Htail as (e4 & Htr4 & Fe4 & Hdone).
    destruct Hk3 as (k & Hk & Hkfull).
    assert (N1 : pick (@train_gnd R) e2 = []) by no_such_event Fe2.
    assert (N2 : pick (@train_gnd R) e3 = []) by no_such_event Fe3.
    assert (N3 : pick (@train_gnd R) e4 = []) by no_such_event Fe4.
    assert (N4 : pick (@val_gnd R Validate) e1 = []) by no_such_event Fe1.
    assert (N5 : pick (@val_gnd R Validate) e3 = []) by no_such_event Fe3.
    assert (N6 : pick (@val_gnd R Validate) e4 = []) by no_such_event Fe4.
    assert (N7 : pick (@val_gnd R Test) e1 = []) by no_such_event Fe1.
    assert (N8 : pick (@val_gnd R Test) e2 = []) by no_such_event Fe2.
    assert (N9 : pick (@val_gnd R Test) e4 = []) by no_such_event Fe4.
    exists (e1 ++ e2 ++ e3 ++ e4).
    rewrite !pick_app, N1, N2, N3, N4, N5, N6, N7, N8, N9.
    rewrite !app_nil_r. simpl app.
    rewrite Hp1, Hp2, Hk, !pick_map_round_trip.
    split; [|split; [|split; [|split]]].
    + rewrite Htr4, Htr3, Htr2, Htr1, <- !app_assoc. reflexivity.
    + rewrite (Permutation_length (Hperm (rng w) (train c))).
      now apply batches_cover.
    + now apply batches_cover.
    + exists k. reflexivity.
    + intros Hfin. destruct (Hdone Hfin) as [te Hte].
      rewrite (Hkfull te Hte), firstn_all. now apply batches_cover.
Qed.

(** C6: a mask generated with [sample_centre=True] and [sample_n = k] has,
    in every batch element and over every column, the value 1 on each
    line whose frequency is one of the [k] lowest (the window of [k]
    frequencies around zero), whatever [ivar] and whatever the random
    draw; so has, in both channels, the mask that [prep_input] returns,
    with [k = 8] and the unshifted order. *)
Theorem mask_centre_lines :
  (forall (St : Type) (draw : St -> spec_float -> nat -> nat -> bool)
          (hpick : St -> nat -> nat -> bool) (adv : St -> St) (g : St)
          (Nt Nx Ny : nat) (ivar : spec_float) (centred hf : bool)
          (k b i y : nat),
      (b < Nt)%nat -> (i < Nx)%nat -> (y < Ny)%nat ->
      low_band k (line_freq centred Nx i) = true ->
      nth y (nth i (nth b (fst (cartesian_mask draw hpick adv g
                                               (Nt, Nx, Ny) ivar centred hf
                                               true k)) []) []) 0 = 1)
  /\ (forall (g : G) (im : list (image R)) (ivar : spec_float)
             (b ch i y : nat),
        (b < length im)%nat -> (ch < 2)%nat ->
        (i < length (hd [] im))%nat ->
        (y < length (hd [] (hd [] im)))%nat ->
        low_band 8 (fft_freq (length (hd [] im)) i) = true ->
        nth y (nth i (nth ch (nth b (snd (fst (fst (prep_input ext g im
                                                               ivar))))
                                  []) []) []) 0 = 1).
Proof.
  split.
  - intros. now apply cartesian_mask_centre.
  - intros g im ivar b ch i y Hb Hch Hi Hy Hband.
    unfold prep_input.
    pose proof (length_cartesian_mask (line_draw ext) (high_pick ext)
                  (rng_advance ext) g (length im)
                  (length (hd [] im)) (length (hd [] (hd [] im)))
                  ivar false true true 8) as Hlen.
    pose proof (cartesian_mask_centre (line_draw ext) (high_pick ext)
                  (rng_advance ext) g ivar false true 8 Hb Hi Hy Hband)
      as Hone.
    fold (shape_of im) in Hlen, Hone.
    destruct (cartesian_mask _ _ _ _ _ _ _ _ _ _) as [mask g'].
    destruct (undersample ext im mask) as [im_und k_und].
    cbn [fst snd] in *. unfold to_lasagne_format_mask.
    rewrite (nth_indep _ [] ((fun p : plane Z => [p; p]) []))
      by (rewrite length_map; unfold image, complex, plane, tensor in *;
          lia).
    rewrite (map_nth (fun p : plane Z => [p; p])).
    destruct ch as [|[|ch]]; [exact Hone | exact Hone | lia].
Qed.

(** C10 (as amended): an epoch that gets to its summary prints, as base
    PSNR and as test PSNR, the sum of the [N] per-image values divided by
    [test_batches * batch_size]; this divisor is at least [N] and exceeds
    [N] whenever [N] is not a multiple of [batch_size].  When every
    per-image value is finite, the value printed is then strictly below
    their arithmetic mean for a positive sum and strictly above it for a
    negative sum; when one of them is not finite ([+inf] for an image
    reproduced exactly, [-inf] or [nan] for an all-zero ground truth), the
    value printed and the mean are the same value that is not finite. *)
Theorem psnr_divisor_exceeds_count
        (c : config R) (e : Z) (w : world R G P) :
  1 <= batch_size c -> batch_preserving -> validate c <> [] ->
  test c <> [] ->
  let N := Z.of_nat (length (test c)) in
  let D := ceil_div N (batch_size c) * batch_size c in
  exists evs,
    trace (snd (run_epoch ext c e w)) = trace w ++ evs
    /\ length (pick (@psnr_term R) evs) = length (test c)
    /\ N <= D
    /\ (N mod batch_size c <> 0 -> N < D)
    /\ psnr_report N D BasePSNR (map fst (pick (@psnr_term R) evs)) evs
    /\ psnr_report N D TestPSNR (map snd (pick (@psnr_term R) evs)) evs.
Proof.
  intros Hb HB Hval_ne Htest_ne N D. epoch_phases c w Hb.
  destruct (Hok3 HB) as [Hcount [te ->]].
  destruct (Hacc3 te eq_refl) as (Hn3 & Hbase & Htest_psnr & _).
  set (B := batch_size c) in *.
  assert (HN : 0 < N).
  { subst N. destruct (test c); [congruence | simpl length; lia]. }
  assert (HD : N <= D /\ (N mod B <> 0 -> N < D)).
  { subst D. pose proof (@ceil_div_bounds N B ltac:(lia)) as Hc.
    split; [nia|]. intros Hmod.
    rewrite (@ceil_div_floor N B) by (assumption || lia).
    pose proof (Z.div_mod N B ltac:(lia)).
    pose proof (Z.mod_pos_bound N B ltac:(lia)). nia. }
  destruct HD as [HD HDlt].
  assert (Hvb : ceil_div (Z.of_nat (length (validate c))) B <> 0).
  { pose proof (@ceil_div_bounds (Z.of_nat (length (validate c))) B
                  ltac:(lia)).
    destruct (validate c); [congruence | simpl length in *; nia]. }
  assert (Htb : ceil_div N B <> 0).
  { pose proof (@ceil_div_bounds N B ltac:(lia)). nia. }
  epoch_unfold Htrain Hval Htest.
  unfold bind at 1. rewrite print_summary_eq. cbv zeta.
  destruct (py_truediv_nonzero terr
              (d := Z.max 1 (ceil_div (Z.of_nat (length (train c))) B))
              ltac:(lia)) as [v1 ->].
  destruct (py_truediv_nonzero verr Hvb) as [v2 ->].
  destruct (py_truediv_nonzero (test_err te) (d := test_batches te)
                               ltac:(rewrite Hn3; exact Htb)) as [v3 ->].
  rewrite Hn3. change (ceil_div _ B * batch_size c) with D.
  destruct (py_truediv_nonzero (base_psnr te) (d := D) ltac:(lia))
    as [v4 Hv4].
  destruct (py_truediv_nonzero (test_psnr te) (d := D) ltac:(lia))
    as [v5 Hv5].
  rewrite Hv4, Hv5.
  destruct (checkpoint_emits c e (vis te)
              (logged w3 [Print (EpochHeader (e + 1) (num_epoch c + 1));
                          Print (TrainingLoss v1);
                          Print (ValidationLoss v2); Print (TestLoss v3);
                          Print (BasePSNR v4); Print (TestPSNR v5)]))
    as [e5 [Htr5 Fe5]].
  eexists. split.
  - refine (eq_trans Htr5 _). unfold logged. cbn [trace].
    rewrite Htr3, Htr2, Htr1, <- !app_assoc. reflexivity.
  - assert (Hpick : forall tl,
               Forall (@is_print R) tl ->
               pick (@psnr_term R) (e1 ++ e2 ++ e3 ++ tl)
               = pick (@psnr_term R) e3).
    { intros tl Ftl. rewrite !pick_app.
      replace (pick (@psnr_term R) e1) with (@nil (npfloat * npfloat))
        by (symmetry; no_such_event Fe1).
      replace (pick (@psnr_term R) e2) with (@nil (npfloat * npfloat))
        by (symmetry; no_such_event Fe2).
      replace (pick (@psnr_term R) tl) with (@nil (npfloat * npfloat))
        by (symmetry; no_such_event Ftl).
      now rewrite app_nil_r. }
    rewrite Hpick
      by (apply Forall_app; split; [repeat constructor | assumption]).
    split; [assumption|]. split; [assumption|]. split; [assumption|].
    rewrite Hbase in Hv4. rewrite Htest_psnr in Hv5.
    split.
    + apply psnr_report_of with (reported := v4);
        [lia | rewrite length_map, Hcount; reflexivity | exact Hv4 |].
      rewrite !in_app_iff. right. right. right. left. simpl. tauto.
    + apply psnr_report_of with (reported := v5);
        [lia | rewrite length_map, Hcount; reflexivity | exact Hv5 |].
      rewrite !in_app_iff. right. right. right. left. simpl. tauto.
Qed.

(** *** Batch sizes below one *)

Lemma iterate_minibatch_zero (A St : Type) (perm : St -> list A -> list A * St)
      (g : St) (data : list A) (shuffle : bool) :
  iterate_minibatch perm g data 0 shuffle
  = (inl (Py.ValueError "xrange() arg 3 must not be zero"),
     snd (if shuffle then perm g data else (data, g))).
Proof.
  unfold iterate_minibatch.
  now destruct (if shuffle then perm g data else (data, g)).
Qed.

Lemma iterate_minibatch_negative (A St : Type)
      (perm : St -> list A -> list A * St)
      (g : St) (data : list A) (bsize : Z) (shuffle : bool) :
  bsize < 0 ->
  iterate_minibatch perm g data bsize shuffle
  = (inr [], snd (if shuffle then perm g data else (data, g))).
Proof.
  intros Hneg. unfold iterate_minibatch, Py.xrange.
  destruct (if shuffle then perm g data else (data, g)) as [data' g'].
  destruct (Z.eqb_spec bsize 0); [lia|].
  destruct (Z.ltb_spec 0 bsize); [lia|].
  replace (Z.to_nat (0 - Z.of_nat (length data))) with 0%nat by lia.
  reflexivity.
Qed.

Lemma run_epoch_zero_batch (c : config R) (e : Z) (w : world R G P) :
  batch_size c = 0 ->
  run_epoch ext c e w
  = (inl (Py.ValueError "xrange() arg 3 must not be zero"),
     World (snd (np_random_permutation ext (rng w) (train c)))
           (net w) (store w) (trace w)).
Proof.
  intros Hb. unfold run_epoch, train_phase, bind, minibatches.
  rewrite Hb, iterate_minibatch_zero. reflexivity.
Qed.

Lemma run_epoch_negative_batch (c : config R) (e : Z) (w : world R G P) :
  batch_size c < 0 ->
  run_epoch ext c e w
  = (inl Py.ZeroDivisionError,
     World (snd (np_random_permutation ext (rng w) (train c)))
           (net w) (store w)
           (trace w ++ [Print (EpochHeader (e + 1) (num_epoch c + 1));
                        Print (TrainingLoss
                                 (PyFloat (inject_Z 0 / inject_Z 1)))])).
Proof.
  intros Hb.
  unfold run_epoch, train_phase, validate_phase, test_phase, bind,
    minibatches.
  rewrite !iterate_minibatch_negative by assumption.
  cbn [rng net store trace fst snd for_each ret].
  rewrite !iterate_minibatch_negative by assumption.
  cbn [rng net store trace fst snd for_each ret].
  rewrite !iterate_minibatch_negative by assumption.
  cbn [rng net store trace fst snd for_each ret].
  rewrite print_summary_eq. reflexivity.
Qed.

(** X6: an epoch with [batch_size = 0] raises [ValueError] at its first
    loop: the training permutation has been drawn, no network function has
    been called and nothing has been printed.  With a negative batch size
    the three loops run over nothing, the training loss is printed as
    [0 / 1], and the division of the validation loss raises
    [ZeroDivisionError]. *)
Theorem run_epoch_bad_batch_size (c : config R) (e : Z) (w : world R G P) :
  (batch_size c = 0 ->
   run_epoch ext c e w
   = (inl (Py.ValueError "xrange() arg 3 must not be zero"),
      World (snd (np_random_permutation ext (rng w) (train c)))
            (net w) (store w) (trace w)))
  /\ (batch_size c < 0 ->
      run_epoch ext c e w
      = (inl Py.ZeroDivisionError,
         World (snd (np_random_permutation ext (rng w) (train c)))
               (net w) (store w)
               (trace w ++ [Print (EpochHeader (e + 1) (num_epoch c + 1));
                            Print (TrainingLoss
                                     (PyFloat (inject_Z 0 / inject_Z 1)))]))).
Proof.
  split; [apply run_epoch_zero_batch | apply run_epoch_negative_batch].
Qed.

(** *** Calls of the network in one epoch *)

(** X7: for [batch_size >= 1] an epoch calls the training function once per
    training batch, [ceil(N_train / B)] times, then the evaluation function
    once per validation batch; it calls the evaluation function on at most
    [ceil(N_test / B)] test batches, and on exactly that many when the epoch
    completes. *)
Theorem epoch_network_calls (c : config R) (e : Z) (w : world R G P) :
  1 <= batch_size c ->
  exists evs,
    trace (snd (run_epoch ext c e w)) = trace w ++ evs
    /\ Z.of_nat (length (pick (@train_gnd R) evs))
       = ceil_div (Z.of_nat (length (train c))) (batch_size c)
    /\ Z.of_nat (length (pick (@val_gnd R Validate) evs))
       = ceil_div (Z.of_nat (length (validate c))) (batch_size c)
    /\ Z.of_nat (length (pick (@val_gnd R Test) evs))
       <= ceil_div (Z.of_nat (length (test c))) (batch_size c)
    /\ (fst (run_epoch ext c e w) = inr tt ->
        Z.of_nat (length (pick (@val_gnd R Test) evs))
        = ceil_div (Z.of_nat (length (test c))) (batch_size c)).
Proof.
  intros Hb. epoch_phases c w Hb.
  assert (Htail : exists e4,
             trace (snd (run_epoch ext c e w)) = trace w3 ++ e4
             /\ Forall (@is_print R) e4
             /\ (fst (run_epoch ext c e w) = inr tt ->
                 exists te, r3 = inr te)).
  { epoch_unfold Htrain Hval Htest. apply epoch_tail. }
  destruct Htail as (e4 & Htr4 & Fe4 & Hdone).
  destruct Hk3 as (k & Hk & Hkfull).
  assert (N1 : pick (@train_gnd R) e2 = []) by no_such_event Fe2.
  assert (N2 : pick (@train_gnd R) e3 = []) by no_such_event Fe3.
  assert (N3 : pick (@train_gnd R) e4 = []) by no_such_event Fe4.
  assert (N4 : pick (@val_gnd R Validate) e1 = []) by no_such_event Fe1.
  assert (N5 : pick (@val_gnd R Validate) e3 = []) by no_such_event Fe3.
  assert (N6 : pick (@val_gnd R Validate) e4 = []) by no_such_event Fe4.
  assert (N7 : pick (@val_gnd R Test) e1 = []) by no_such_event Fe1.
  assert (N8 : pick (@val_gnd R Test) e2 = []) by no_such_event Fe2.
  assert (N9 : pick (@val_gnd R Test) e4 = []) by no_such_event Fe4.
  exists (e1 ++ e2 ++ e3 ++ e4).
  rewrite !pick_app, N1, N2, N3, N4, N5, N6, N7, N8, N9.
  rewrite !app_nil_r. simpl app.
  rewrite Hp1, Hp2, Hk, !length_map.
  pose proof (length_batches_of (length (test c)) (test c) Hb) as Hcount.
  split; [|split; [|split; [|split]]].
  - rewrite Htr4, Htr3, Htr2, Htr1, <- !app_assoc. reflexivity.
  - now apply length_batches_of.
  - now apply length_batches_of.
  - rewrite <- Hcount, length_firstn. lia.
  - intros Hfin. destruct (Hdone Hfin) as [te Hte].
    rewrite (Hkfull te Hte), firstn_all. exact Hcount.
Qed.

(** *** The losses printed *)

(** The loss returned by a call of [train_fn]. *)
Definition train_loss (ev : event R) : option Q :=
  match ev with TrainFn _ q => Some q | _ => None end.

(** The loss returned by a call of [val_fn] made for the split [s]. *)
Definition val_loss (s : split) (ev : event R) : option Q :=
  match ev, s with
  | ValFn Validate _ q, Validate => Some q
  | ValFn Test _ q, Test => Some q
  | _, _ => None
  end.

Lemma train_loop_losses (c : config R) (bs : list (list (image R))) :
  forall (acc : pynum * Z) (w : world R G P),
  exists r w' evs,
    for_each (train_step ext c) bs acc w = (inr r, w')
    /\ trace w' = trace w ++ evs
    /\ fst r = fold_left py_add (pick train_loss evs) (fst acc)
    /\ length (pick train_loss evs) = length bs.
Proof.
  induction bs as [|im bs IH]; intros acc w.
  - exists acc, w, []. simpl. unfold ret. rewrite app_nil_r.
    repeat split; reflexivity.
  - destruct (train_step_run c acc im w) as (err & w1 & Hstep & Htr).
    destruct (IH (py_add (fst acc) err, snd acc + 1) w1)
      as (r & w' & evs & Hrun & Htr' & Hsum & Hlen).
    exists r, w', (TrainFn (to_lasagne_format im) err :: evs).
    simpl for_each. unfold bind. rewrite Hstep, Hrun.
    repeat split.
    + rewrite Htr', Htr, <- app_assoc. reflexivity.
    + exact Hsum.
    + simpl. now rewrite <- Hlen.
Qed.

Lemma validate_loop_losses (c : config R) (bs : list (list (image R))) :
  forall (acc : pynum * Z) (w : world R G P),
  exists r w' evs,
    for_each (validate_step ext c) bs acc w = (inr r, w')
    /\ trace w' = trace w ++ evs
    /\ fst r = fold_left py_add (pick (val_loss Validate) evs) (fst acc)
    /\ length (pick (val_loss Validate) evs) = length bs.
Proof.
  induction bs as [|im bs IH]; intros acc w.
  - exists acc, w, []. simpl. unfold ret. rewrite app_nil_r.
    repeat split; reflexivity.
  - destruct (validate_step_run c acc im w) as (err & w1 & Hstep & Htr).
    destruct (IH (py_add (fst acc) err, snd acc + 1) w1)
      as (r & w' & evs & Hrun & Htr' & Hsum & Hlen).
    exists r, w', (ValFn Validate (to_lasagne_format im) err :: evs).
    simpl for_each. unfold bind. rewrite Hstep, Hrun.
    repeat split.
    + rewrite Htr', Htr, <- app_assoc. reflexivity.
    + exact Hsum.
    + simpl. now rewrite <- Hlen.
Qed.

Lemma pick_val_loss_psnr_events (s : split) zs :
  pick (val_loss s) (psnr_events zs) = [].
Proof.
  induction zs as [|z zs IH]; [reflexivity|].
  unfold pick in *. simpl. now destruct s.
Qed.

Lemma test_loop_losses (c : config R) (bs : list (list (image R))) :
  forall (acc acc' : test_acc R) (w w' : world R G P),
    for_each (test_step ext c) bs acc w = (inr acc', w') ->
    exists evs,
      trace w' = trace w ++ evs
      /\ test_err acc'
         = fold_left py_add (pick (val_loss Test) evs) (test_err acc)
      /\ length (pick (val_loss Test) evs) = length bs.
Proof.
  induction bs as [|im bs IH]; intros acc acc' w w' Hrun.
  - simpl in Hrun. unfold ret in Hrun. injection Hrun as <- <-.
    exists []. rewrite app_nil_r. repeat split; reflexivity.
  - destruct (test_step_run c acc im w)
      as (err & zs & r1 & w1 & Hstep & Htr & Hacc & _).
    simpl for_each in Hrun. unfold bind in Hrun. rewrite Hstep in Hrun.
    destruct r1 as [x|acc1]; [discriminate|].
    destruct (Hacc acc1 eq_refl) as (Herr & _).
    destruct (IH acc1 acc' w1 w' Hrun) as (evs & Htr' & Hsum & Hlen).
    exists (ValFn Test (to_lasagne_format im) err :: psnr_events zs ++ evs).
    repeat split.
    + rewrite Htr', Htr, <- app_assoc. reflexivity.
    + change (ValFn Test (to_lasagne_format im) err :: psnr_events zs ++ evs)
        with ([ValFn Test (to_lasagne_format im) err]
                ++ psnr_events zs ++ evs).
      rewrite !pick_app, pick_val_loss_psnr_events. simpl.
      rewrite Hsum, Herr. reflexivity.
    + change (ValFn Test (to_lasagne_format im) err :: psnr_events zs ++ evs)
        with ([ValFn Test (to_lasagne_format im) err]
                ++ psnr_events zs ++ evs).
      rewrite !pick_app, pick_val_loss_psnr_events. simpl.
      now rewrite Hlen.
Qed.

(** Several runs of the same loop from the same world leave the same
    events. *)
Lemma same_events (w w' : world R G P) (evs evs' : list (event R)) :
  trace w' = trace w ++ evs -> trace w' = trace w ++ evs' -> evs = evs'.
Proof. intros H H'. rewrite H in H'. now apply app_inv_head in H'. Qed.

(** X8: each loss printed is the arithmetic mean, over the batches of its
    split, of the losses the network returned: a short last batch weighs
    as much as a full one. *)
Theorem losses_are_batch_means (c : config R) (e : Z) (w : world R G P) :
  1 <= batch_size c -> batch_preserving ->
  train c <> [] -> validate c <> [] -> test c <> [] ->
  exists evs,
    trace (snd (run_epoch ext c e w)) = trace w ++ evs
    /\ In (Print (TrainingLoss (PyFloat (mean (pick train_loss evs))))) evs
    /\ In (Print (ValidationLoss
                    (PyFloat (mean (pick (val_loss Validate) evs))))) evs
    /\ In (Print (TestLoss (PyFloat (mean (pick (val_loss Test) evs))))) evs
    /\ Z.of_nat (length (pick train_loss evs))
       = ceil_div (Z.of_nat (length (train c))) (batch_size c)
    /\ Z.of_nat (length (pick (val_loss Validate) evs))
       = ceil_div (Z.of_nat (length (validate c))) (batch_size c)
    /\ Z.of_nat (length (pick (val_loss Test) evs))
       = ceil_div (Z.of_nat (length (test c))) (batch_size c).
Proof.
  intros Hb HB Htrain_ne Hval_ne Htest_ne. epoch_phases c w Hb.
  destruct (Hok3 HB) as [_ [te ->]].
  destruct (Hacc3 te eq_refl) as (Hn3 & _ & _ & _).
  (* the sums of the losses *)
  assert (L1 : terr = fold_left py_add (pick train_loss e1) (PyInt 0)
               /\ Z.of_nat (length (pick train_loss e1))
                  = ceil_div (Z.of_nat (length (train c))) (batch_size c)).
  { unfold train_phase, bind in Htrain.
    rewrite minibatches_run in Htrain by assumption.
    match type of Htrain with
    | for_each _ ?bs ?acc ?w0 = _ =>
        destruct (train_loop_losses c bs acc w0)
          as (r & w' & evs & Hrun & Htr & Hsum & Hlen);
        rewrite Hrun in Htrain; injection Htrain as Hr Hw; subst r w';
        pose proof (length_batches_of (length (train c))
                      (fst (drawn (np_random_permutation ext) (rng w)
                                  (train c) true)) Hb) as Hcount
    end.
    rewrite (@same_events w w1 e1 evs Htr1 Htr). split; [exact Hsum|].
    rewrite Hlen. exact Hcount. }
  assert (L2 : verr = fold_left py_add (pick (val_loss Validate) e2) (PyInt 0)
               /\ Z.of_nat (length (pick (val_loss Validate) e2))
                  = ceil_div (Z.of_nat (length (validate c))) (batch_size c)).
  { unfold validate_phase, bind in Hval.
    rewrite minibatches_run in Hval by assumption.
    match type of Hval with
    | for_each _ ?bs ?acc ?w0 = _ =>
        destruct (validate_loop_losses c bs acc w0)
          as (r & w' & evs & Hrun & Htr & Hsum & Hlen);
        rewrite Hrun in Hval; injection Hval as Hr Hw; subst r w';
        pose proof (length_batches_of (length (validate c))
                      (fst (drawn (np_random_permutation ext) (rng w1)
                                  (validate c) false)) Hb) as Hcount
    end.
    rewrite (@same_events w1 w2 e2 evs Htr2 Htr). split; [exact Hsum|].
    rewrite Hlen. exact Hcount. }
  assert (L3 : test_err te
               = fold_left py_add (pick (val_loss Test) e3) (PyInt 0)
               /\ Z.of_nat (length (pick (val_loss Test) e3))
                  = ceil_div (Z.of_nat (length (test c))) (batch_size c)).
  { unfold test_phase, bind in Htest.
    rewrite minibatches_run in Htest by assumption.
    match type of Htest with
    | for_each _ ?bs ?acc ?w0 = _ =>
        destruct (test_loop_losses c bs acc w0 Htest)
          as (evs & Htr & Hsum & Hlen);
        pose proof (length_batches_of (length (test c))
                      (fst (drawn (np_random_permutation ext) (rng w2)
                                  (test c) false)) Hb) as Hcount
    end.
    rewrite (@same_events w2 w3 e3 evs Htr3 Htr). split; [exact Hsum|].
    rewrite Hlen. exact Hcount. }
  destruct L1 as [S1 C1]. destruct L2 as [S2 C2]. destruct L3 as [S3 C3].
  assert (P1 : 1 <= ceil_div (Z.of_nat (length (train c))) (batch_size c)).
  { pose proof (@ceil_div_bounds (Z.of_nat (length (train c)))
                  (batch_size c) ltac:(lia)).
    destruct (train c); [congruence | simpl length in *; nia]. }
  assert (P2 : 1 <= ceil_div (Z.of_nat (length (validate c))) (batch_size c)).
  { pose proof (@ceil_div_bounds (Z.of_nat (length (validate c)))
                  (batch_size c) ltac:(lia)).
    destruct (validate c); [congruence | simpl length in *; nia]. }
  assert (P3 : 1 <= ceil_div (Z.of_nat (length (test c))) (batch_size c)).
  { pose proof (@ceil_div_bounds (Z.of_nat (length (test c)))
                  (batch_size c) ltac:(lia)).
    destruct (test c); [congruence | simpl length in *; nia]. }
  rewrite fold_py_add in S1
    by (intros E; rewrite E in C1; simpl in C1; lia).
  rewrite fold_py_add in S2
    by (intros E; rewrite E in C2; simpl in C2; lia).
  rewrite fold_py_add in S3
    by (intros E; rewrite E in C3; simpl in C3; lia).
  epoch_unfold Htrain Hval Htest.
  unfold bind at 1. rewrite print_summary_eq. cbv zeta.
  rewrite S1, S2, S3, Hn3.
  rewrite Z.max_r by lia.
  unfold py_truediv at 1 2 3.
  destruct (Z.eqb_spec (ceil_div (Z.of_nat (length (train c)))
                                 (batch_size c)) 0); [lia|].
  destruct (Z.eqb_spec (ceil_div (Z.of_nat (length (validate c)))
                                 (batch_size c)) 0); [lia|].
  destruct (Z.eqb_spec (ceil_div (Z.of_nat (length (test c)))
                                 (batch_size c)) 0); [lia|].
  replace (Qsum (pick train_loss e1)
           / inject_Z (ceil_div (Z.of_nat (length (train c)))
                                (batch_size c)))%Q
    with (mean (pick train_loss e1))
    by (unfold mean; rewrite C1; reflexivity).
  replace (Qsum (pick (val_loss Validate) e2)
           / inject_Z (ceil_div (Z.of_nat (length (validate c)))
                                (batch_size c)))%Q
    with (mean (pick (val_loss Validate) e2))
    by (unfold mean; rewrite C2; reflexivity).
  replace (Qsum (pick (val_loss Test) e3)
           / inject_Z (ceil_div (Z.of_nat (length (test c)))
                                (batch_size c)))%Q
    with (mean (pick (val_loss Test) e3))
    by (unfold mean; rewrite C3; reflexivity).
  destruct (py_truediv_nonzero (base_psnr te)
              (d := ceil_div (Z.of_nat (length (test c))) (batch_size c)
                    * batch_size c) ltac:(nia)) as [v4 ->].
  destruct (py_truediv_nonzero (test_psnr te)
              (d := ceil_div (Z.of_nat (length (test c))) (batch_size c)
                    * batch_size c) ltac:(nia)) as [v5 ->].
  match goal with
  | |- context [checkpoint c e (vis te) ?w4] =>
      destruct (checkpoint_emits c e (vis te) w4) as [e5 [Htr5 Fe5]]
  end.
  assert (Hpick : forall (f : event R -> option Q) tl,
             Forall (@is_print R) tl ->
             (forall l, f (Print l) = None) ->
             pick f tl = []).
  { intros f tl Ftl Hf. apply pick_none.
    apply Forall_impl with (P := @is_print R); [|assumption].
    intros [? ?|? ? ?|? ?|l] Hev; try destruct Hev. apply Hf. }
  eexists. split.
  - refine (eq_trans Htr5 _). unfold logged. cbn [trace].
    rewrite Htr3, Htr2, Htr1, <- !app_assoc. reflexivity.
  - match goal with
    | |- context [e1 ++ e2 ++ e3 ++ ?tl ++ e5] =>
        remember tl as lines eqn:Hlines;
        assert (Fl : Forall (@is_print R) lines)
          by (subst lines; repeat constructor)
    end.
    rewrite !pick_app.
    rewrite !(Hpick train_loss lines Fl), !(Hpick train_loss e5 Fe5),
      !(Hpick (val_loss Validate) lines Fl),
      !(Hpick (val_loss Validate) e5 Fe5),
      !(Hpick (val_loss Test) lines Fl), !(Hpick (val_loss Test) e5 Fe5)
      by (intros l; reflexivity).
    replace (pick train_loss e2) with (@nil Q)
      by (symmetry; no_such_event Fe2).
    replace (pick train_loss e3) with (@nil Q)
      by (symmetry; no_such_event Fe3).
    replace (pick (val_loss Validate) e1) with (@nil Q)
      by (symmetry; no_such_event Fe1).
    replace (pick (val_loss Validate) e3) with (@nil Q)
      by (symmetry; no_such_event Fe3).
    replace (pick (val_loss Test) e1) with (@nil Q)
      by (symmetry; no_such_event Fe1).
    replace (pick (val_loss Test) e2) with (@nil Q)
      by (symmetry; no_such_event Fe2).
    rewrite !app_nil_r. simpl app.
    repeat split; try assumption;
      rewrite !in_app_iff; right; right; right; left; subst lines;
      simpl; tauto.
Qed.

(** *** The batches kept for the diagnostic images *)

Lemma test_step_vis (c : config R) (acc acc' : test_acc R)
      (im : list (image R)) (w w' : world R G P) :
  test_step ext c acc im w = (inr acc', w') ->
  length (vis acc')
  = Nat.add (length (vis acc))
            (if save_fig c && ((test_batches acc + 1) mod save_every =? 0)
             then 1%nat else 0%nat)
  /\ test_batches acc' = test_batches acc + 1.
Proof.
  unfold test_step. unfold bind at 1. unfold with_rng, prep_input.
  destruct (cartesian_mask _ _ _ _ _ _ _ _ _ _) as [mask g'].
  destruct (undersample ext im mask) as [im_und k_und].
  cbv beta iota. unfold bind at 1. unfold call_val_fn.
  cbn [rng net store trace].
  destruct (val_fn ext _ _ _ _ _) as [err pred].
  cbv beta iota. unfold bind at 1. rewrite psnr_loop.
  cbv beta iota. cbn [rng net store trace fst snd].
  unfold bind at 1.
  destruct (save_fig c && ((test_batches acc + 1) mod save_every =? 0)).
  - unfold bind, lift, ret.
    destruct (index0 im); [discriminate|].
    destruct (index0 (from_lasagne_format pred)); [discriminate|].
    destruct (index0 (from_lasagne_format (to_lasagne_format im_und)));
      [discriminate|].
    destruct (index0 (from_lasagne_format_mask (to_lasagne_format_mask mask)));
      [discriminate|].
    intros H. injection H as <- <-. cbn [vis test_batches].
    rewrite length_app. split; reflexivity.
  - unfold ret. intros H. injection H as <- <-. cbn [vis test_batches].
    split; [lia | reflexivity].
Qed.

Lemma fifth_step (t : Z) :
  (t + 1) / save_every - t / save_every
  = if (t + 1) mod save_every =? 0 then 1 else 0.
Proof.
  unfold save_every.
  destruct (Z.eqb_spec ((t + 1) mod 5) 0) as [E|E];
    Z.div_mod_to_equations; lia.
Qed.

Lemma test_loop_vis (c : config R) (bs : list (list (image R))) :
  forall (acc acc' : test_acc R) (w w' : world R G P),
    for_each (test_step ext c) bs acc w = (inr acc', w') ->
    Z.of_nat (length (vis acc'))
    = Z.of_nat (length (vis acc))
      + (if save_fig c
         then (test_batches acc + Z.of_nat (length bs)) / save_every
              - test_batches acc / save_every
         else 0).
Proof.
  induction bs as [|im bs IH]; intros acc acc' w w' Hrun.
  - simpl in Hrun. unfold ret in Hrun. injection Hrun as <- <-.
    simpl length. rewrite Z.add_0_r. destruct (save_fig c); lia.
  - simpl for_each in Hrun. unfold bind in Hrun.
    destruct (test_step ext c acc im w) as [[x|acc1] w1] eqn:Hstep;
      [discriminate|].
    destruct (test_step_vis _ _ _ _ Hstep) as [Hv Hn].
    rewrite (IH _ _ _ _ Hrun), Hv, Hn.
    change (length (im :: bs)) with (S (length bs)).
    pose proof (fifth_step (test_batches acc)) as H5.
    replace (test_batches acc + Z.of_nat (S (length bs)))
      with (test_batches acc + 1 + Z.of_nat (length bs)) by lia.
    unfold save_every in *.
    unfold vis_entry, image, plane, complex in *.
    destruct (save_fig c); simpl andb.
    + destruct ((test_batches acc + 1) mod 5 =? 0);
        clear - H5; rewrite Nat2Z.inj_add; lia.
    + clear - H5. rewrite Nat2Z.inj_add. lia.
Qed.

(** X9: with [--savefig] the test loop keeps one batch in five for the
    diagnostic images, [floor(test_batches / 5)] in all; without it, none.
    With fewer than five test batches nothing is kept. *)
Theorem vis_every_fifth_batch (c : config R) (te : test_acc R)
        (w w' : world R G P) :
  1 <= batch_size c ->
  test_phase ext c w = (inr te, w') ->
  Z.of_nat (length (vis te))
  = if save_fig c
    then ceil_div (Z.of_nat (length (test c))) (batch_size c) / save_every
    else 0.
Proof.
  intros Hb Hrun. unfold test_phase, bind in Hrun.
  rewrite minibatches_run in Hrun by assumption.
  apply test_loop_vis in Hrun. rewrite Hrun.
  rewrite length_batches_of by assumption.
  cbn [vis test_batches length].
  destruct (save_fig c); [|reflexivity].
  change (0 / save_every) with 0. rewrite Z.add_0_l, Z.sub_0_r.
  reflexivity.
Qed.

(** *** The files of a checkpoint *)

(** The paths of the image files for [n] kept batches, numbered from [i]. *)
Definition image_paths (i : Z) (n : nat) : list path :=
  flat_map (fun k => [ImFile (i + Z.of_nat k); MaskFile (i + Z.of_nat k)])
           (seq 0 n).

Lemma image_paths_S (i : Z) (n : nat) :
  image_paths i (S n) = ImFile i :: MaskFile i :: image_paths (i + 1) n.
Proof.
  unfold image_paths. simpl seq. simpl flat_map. rewrite Z.add_0_r.
  do 2 f_equal. rewrite <- seq_shift, flat_map_concat_map, map_map.
  rewrite <- flat_map_concat_map. apply flat_map_ext. intros k.
  now replace (i + Z.of_nat (S k)) with (i + 1 + Z.of_nat k) by lia.
Qed.

Lemma save_vis_step (i : Z) (im_i pred_i und_i : image R) (mask_i : plane Z)
      (w : world R G P) :
  save_vis i (im_i, pred_i, und_i, mask_i) w
  = (inr (i + 1),
     World (rng w) (net w)
           ((store w ++ [(ImFile i, Panels P und_i pred_i im_i)])
              ++ [(MaskFile i, MaskImage mask_i)])
           (trace w)).
Proof. reflexivity. Qed.

Lemma save_vis_paths (vs : list (vis_entry R)) :
  forall (i : Z) (w : world R G P),
  exists files,
    for_each (@save_vis R G P) vs i w
    = (inr (i + Z.of_nat (length vs)),
       World (rng w) (net w) (store w ++ files) (trace w))
    /\ map fst files = image_paths i (length vs).
Proof.
  induction vs as [|[[[im_i pred_i] und_i] mask_i] vs IH]; intros i w.
  - exists []. simpl. unfold ret. rewrite Z.add_0_r, app_nil_r.
    split; [now destruct w | reflexivity].
  - destruct (IH (i + 1)
                 (World (rng w) (net w)
                        ((store w ++ [(ImFile i, Panels P und_i pred_i im_i)])
                           ++ [(MaskFile i, MaskImage mask_i)])
                        (trace w)))
      as [files [Hrun Hpaths]].
    exists ((ImFile i, Panels P und_i pred_i im_i)
              :: (MaskFile i, MaskImage mask_i) :: files).
    split.
    + cbn [for_each]. unfold bind.
      rewrite save_vis_step, Hrun. cbn [rng net store trace].
      change (length ((im_i, pred_i, und_i, mask_i) :: vs))
        with (S (length vs)).
      f_equal; [f_equal; lia|]. rewrite <- !app_assoc. reflexivity.
    + change (length ((im_i, pred_i, und_i, mask_i) :: vs))
        with (S (length vs)).
      rewrite image_paths_S. simpl. now rewrite Hpaths.
Qed.

(** X10: the checkpoint block never raises.  It writes when [--savefig] is
    on and the epoch is a multiple of [save_every] or one of 1, 2,
    [num_epoch - 1], and only then: the image and mask files of the kept
    batches, numbered from 0, then the parameter file named after the
    epoch.  The names of the image files do not carry the epoch. *)
Theorem checkpoint_files (c : config R) (e : Z) (vs : list (vis_entry R))
        (w : world R G P) :
  let due := save_fig c
             && ((e mod save_every =? 0)
                 || existsb (Z.eqb e) [1; 2; num_epoch c - 1]) in
  exists files,
    checkpoint c e vs w
    = (inr tt,
       World (rng w) (net w) (store w ++ files)
             (trace w ++ if due then [Print (ParamsSaved e)] else []))
    /\ map fst files
       = if due
         then image_paths 0 (length vs) ++ [ParamFile model_name e]
         else [].
Proof.
  intros due. unfold checkpoint. fold due. destruct due.
  - destruct (save_vis_paths vs 0 w) as [files [Hrun Hpaths]].
    exists (files ++ [(ParamFile model_name e, ParamValues (net w))]).
    unfold bind at 1. rewrite Hrun.
    unfold bind, get_all_param_values, write_file, emit.
    cbn [rng net store trace]. split.
    + now rewrite <- app_assoc.
    + rewrite map_app, Hpaths. reflexivity.
  - exists []. unfold ret. rewrite !app_nil_r.
    split; [now destruct w | reflexivity].
Qed.

(** *** The parameters a checkpoint saves *)

(** The parameters of the network were not changed. *)
Definition same_net (w w' : world R G P) : Prop := net w' = net w.

Lemma same_net_refl w : same_net w w.
Proof. reflexivity. Qed.

Lemma same_net_trans a b c : same_net a b -> same_net b c -> same_net a c.
Proof. unfold same_net. congruence. Qed.

Lemma net_emit (ev : event R) : frame same_net (emit ev).
Proof. intros w. reflexivity. Qed.

Lemma net_with_rng (X : Type) (f : G -> X * G) : frame same_net (with_rng f).
Proof. intros w. unfold with_rng. now destruct (f (rng w)). Qed.

Lemma net_minibatches data bsize shuffle :
  frame same_net (minibatches ext data bsize shuffle).
Proof. intros w. unfold minibatches. now destruct iterate_minibatch. Qed.

Lemma net_call_val_fn s a m k t : frame same_net (call_val_fn ext s a m k t).
Proof. intros w. unfold call_val_fn. now destruct val_fn. Qed.

Lemma net_write_file (p : path) (a : artifact R P) :
  frame same_net (write_file p a).
Proof. intros w. reflexivity. Qed.

Lemma net_get_all_param_values : frame same_net (@get_all_param_values R G P).
Proof. intros w. reflexivity. Qed.

Ltac net_walk :=
  frame_walk same_net_refl same_net_trans
    ltac:(first [ apply net_emit | apply net_with_rng
                | apply net_minibatches | apply net_call_val_fn
                | apply net_write_file | apply net_get_all_param_values ]).

Lemma validate_phase_net c : frame same_net (validate_phase ext c).
Proof. unfold validate_phase, validate_step. net_walk. Qed.

Lemma test_phase_net c : frame same_net (test_phase ext c).
Proof. unfold test_phase, test_step, psnr_step. net_walk. Qed.

Lemma print_summary_net c e a b a' b' t :
  frame same_net (@print_summary R G P c e a b a' b' t).
Proof. unfold print_summary. net_walk. Qed.

(** Whatever follows the training loop leaves the parameters alone. *)
Lemma after_training_net (c : config R) (e : Z) (tr : pynum * Z) :
  frame same_net
        (bind (validate_phase ext c) (fun va =>
         bind (test_phase ext c) (fun te =>
         bind (print_summary c e (fst tr) (snd tr) (fst va) (snd va) te)
              (fun _ => checkpoint c e (vis te))))).
Proof.
  unfold validate_phase, validate_step, test_phase, test_step, psnr_step,
    print_summary, checkpoint, save_vis.
  net_walk.
Qed.

(** X11: only the training loop changes the parameters of the network: an
    epoch leaves them as its training loop left them, whether it completes
    or raises.  So, with [--savefig], a completed epoch of the cadence
    writes last the parameter file of that epoch, holding the parameters
    its own training loop produced. *)
Theorem epoch_saves_trained_parameters
        (c : config R) (e : Z) (w : world R G P) :
  net (snd (run_epoch ext c e w)) = net (snd (train_phase ext c w))
  /\ (save_fig c = true ->
      e mod save_every = 0 \/ In e [1; 2; num_epoch c - 1] ->
      fst (run_epoch ext c e w) = inr tt ->
      exists files,
        store (snd (run_epoch ext c e w))
        = store w ++ files
                  ++ [(ParamFile model_name e,
                       ParamValues (net (snd (train_phase ext c w))))]).
Proof.
  assert (Hnet : net (snd (run_epoch ext c e w))
                 = net (snd (train_phase ext c w))).
  { unfold run_epoch. unfold bind at 1.
    destruct (train_phase ext c w) as [[x|tr] w1]; [reflexivity|].
    apply (after_training_net c e tr w1). }
  split; [exact Hnet|].
  intros Hfig Hwhen Hfin.
  destruct (Z.lt_trichotomy (batch_size c) 0) as [Hneg|[Hzero|Hpos]].
  - rewrite run_epoch_negative_batch in Hfin by assumption. discriminate.
  - rewrite run_epoch_zero_batch in Hfin by assumption. discriminate.
  - assert (Hb : 1 <= batch_size c) by lia.
    clear Hnet. epoch_phases c w Hb.
    pose proof (train_phase_store c w) as S1. rewrite Htrain in S1.
    pose proof (validate_phase_store c w1) as S2. rewrite Hval in S2.
    pose proof (test_phase_store c w2) as S3. rewrite Htest in S3.
    pose proof (validate_phase_net c w1) as N2. rewrite Hval in N2.
    pose proof (test_phase_net c w2) as N3. rewrite Htest in N3.
    unfold same_store in S1, S2, S3. unfold same_net in N2, N3.
    cbn [snd] in S1, S2, S3, N2, N3.
    rewrite (@run_epoch_eq _ e _ _ _ _ _ _ _ Htrain Hval Htest) in Hfin |- *.
    rewrite Htrain. cbn [fst snd] in Hfin |- *.
    destruct r3 as [x|te]; [discriminate|].
    unfold bind at 1 in Hfin. unfold bind at 1.
    pose proof (print_summary_store c e terr
                  (ceil_div (Z.of_nat (length (train c))) (batch_size c))
                  verr
                  (ceil_div (Z.of_nat (length (validate c))) (batch_size c))
                  te w3) as S4.
    pose proof (print_summary_net c e terr
                  (ceil_div (Z.of_nat (length (train c))) (batch_size c))
                  verr
                  (ceil_div (Z.of_nat (length (validate c))) (batch_size c))
                  te w3) as N4.
    unfold same_store in S4. unfold same_net in N4.
    destruct (print_summary c e terr _ verr _ te w3) as [[x|u] w4];
      [discriminate|].
    cbn [snd] in S4, N4.
    destruct (@checkpoint_saves_params c e (vis te) w4 Hfig Hwhen)
      as [fs Hstore].
    exists fs. rewrite Hstore, S4, S3, S2, S1, N4, N3, N2. reflexivity.
Qed.

(** *** The whole run: [main] *)

Lemma compile_fn_zero (a : Compile.args) :
  Py.float_eq_zero (Compile.l2 a) = true ->
  Compile.compile_fn a = inl (Py.UnboundLocalError "loss").
Proof.
  intros H. unfold Compile.compile_fn.
  now rewrite float_bool_eq_zero, H.
Qed.

Lemma compile_fn_nonzero (a : Compile.args) :
  Py.float_eq_zero (Compile.l2 a) = false ->
  exists fns, Compile.compile_fn a = inr fns.
Proof.
  intros H. unfold Compile.compile_fn.
  rewrite float_bool_eq_zero, H. simpl. eexists. reflexivity.
Qed.

(** Once the functions are compiled, the run is the sequence of the epochs
    [0, 1, ..., num_epoch - 1], cut at the first one that raises. *)
Lemma main_epochs (a : Compile.args) (c : config R) (w : world R G P) :
  Py.float_eq_zero (Compile.l2 a) = false ->
  main ext a c w
  = for_each (fun (_ : unit) e => run_epoch ext c e)
             (map Z.of_nat (seq 0 (Z.to_nat (num_epoch c)))) tt w.
Proof.
  intros H. destruct (compile_fn_nonzero a H) as [fns Hfns].
  unfold main, bind, lift. rewrite Hfns.
  rewrite xrange_positive by lia.
  replace (ceil_div (num_epoch c) 1) with (num_epoch c)
    by (unfold ceil_div; rewrite Z.div_1_r; lia).
  f_equal. apply map_ext. intros k. lia.
Qed.

(** X12: with [l2 == 0] the run raises [UnboundLocalError] in [compile_fn],
    before the first epoch: from the call of [compile_fn] on no batch is
    drawn, no network function is called, no summary line is printed and
    no file is written.  With a non-zero [l2] and [num_epoch <= 0] the loop
    over the epochs is empty and the run ends normally, without an epoch
    (the splits are those of [create_dummy_data], taken as loaded). *)
Theorem main_before_first_epoch
        (a : Compile.args) (c : config R) (w : world R G P) :
  (Py.float_eq_zero (Compile.l2 a) = true ->
   main ext a c w = (inl (Py.UnboundLocalError "loss"), w))
  /\ (Py.float_eq_zero (Compile.l2 a) = false -> num_epoch c <= 0 ->
      main ext a c w = (inr tt, w)).
Proof.
  split.
  - intros H. unfold main, bind, lift. now rewrite compile_fn_zero.
  - intros H Hn. rewrite main_epochs by assumption.
    replace (Z.to_nat (num_epoch c)) with 0%nat by lia. reflexivity.
Qed.

(** The header line of an epoch. *)
Definition epoch_header (ev : event R) : option (Z * Z) :=
  match ev with
  | Print (EpochHeader i n) => Some (i, n)
  | _ => None
  end.

Definition is_saved_line (ev : event R) : Prop :=
  match ev with
  | Print (ParamsSaved _) => True
  | _ => False
  end.

Lemma checkpoint_emits_saved c e vs :
  frame (@emits R G P is_saved_line) (@checkpoint R G P c e vs).
Proof. unfold checkpoint, save_vis. emits_walk is_saved_line. Qed.

Lemma run_epoch_header (c : config R) (e : Z) (w : world R G P) :
  fst (run_epoch ext c e w) = inr tt ->
  exists evs,
    trace (snd (run_epoch ext c e w)) = trace w ++ evs
    /\ pick epoch_header evs = [(e + 1, num_epoch c + 1)].
Proof.
  intros Hfin.
  destruct (Z.lt_trichotomy (batch_size c) 0) as [Hneg|[Hzero|Hpos]].
  - rewrite run_epoch_negative_batch in Hfin by assumption. discriminate.
  - rewrite run_epoch_zero_batch in Hfin by assumption. discriminate.
  - assert (Hb : 1 <= batch_size c) by lia.
    epoch_phases c w Hb.
    rewrite (@run_epoch_eq _ e _ _ _ _ _ _ _ Htrain Hval Htest) in Hfin |- *.
    cbn [fst snd] in Hfin |- *.
    destruct r3 as [x|te]; [discriminate|].
    unfold bind at 1 in Hfin. unfold bind at 1.
    rewrite print_summary_eq in Hfin |- *. cbv zeta in Hfin |- *.
    destruct (py_truediv terr _) as [x|v1]; [discriminate|].
    destruct (py_truediv verr _) as [x|v2]; [discriminate|].
    destruct (py_truediv (test_err te) _) as [x|v3]; [discriminate|].
    destruct (py_truediv (base_psnr te) _) as [x|v4]; [discriminate|].
    destruct (py_truediv (test_psnr te) _) as [x|v5]; [discriminate|].
    match goal with
    | |- context [checkpoint c e (vis te) ?w4] =>
        destruct (checkpoint_emits_saved c e (vis te) w4) as [e5 [Htr5 Fe5]]
    end.
    eexists. split.
    + refine (eq_trans Htr5 _). unfold logged. cbn [trace].
      rewrite Htr3, Htr2, Htr1, <- !app_assoc. reflexivity.
    + rewrite !pick_app.
      replace (pick epoch_header e1) with (@nil (Z * Z))
        by (symmetry; no_such_event Fe1).
      replace (pick epoch_header e2) with (@nil (Z * Z))
        by (symmetry; no_such_event Fe2).
      replace (pick epoch_header e3) with (@nil (Z * Z))
        by (symmetry; no_such_event Fe3).
      replace (pick epoch_header e5) with (@nil (Z * Z)); [reflexivity|].
      symmetry. apply pick_none.
      apply Forall_impl with (P := is_saved_line); [|assumption].
      intros [? ?|? ? ?|? ?|l] Hev; try destruct Hev.
      destruct l; try destruct Hev. reflexivity.
Qed.

Lemma epochs_headers (c : config R) (es : list Z) :
  forall (w : world R G P),
    fst (for_each (fun (_ : unit) e => run_epoch ext c e) es tt w) = inr tt ->
    exists evs,
      trace (snd (for_each (fun (_ : unit) e => run_epoch ext c e) es tt w))
      = trace w ++ evs
      /\ pick epoch_header evs
         = map (fun e => (e + 1, num_epoch c + 1)) es.
Proof.
  induction es as [|e es IH]; intros w Hfin.
  - exists []. simpl. now rewrite app_nil_r.
  - cbn [for_each] in Hfin |- *. unfold bind in Hfin |- *.
    pose proof (run_epoch_header c e w) as Hhead.
    destruct (run_epoch ext c e w) as [[x|[]] w1]; [discriminate|].
    destruct (Hhead eq_refl) as (ev1 & Htr1 & Hp1).
    destruct (IH w1 Hfin) as (ev2 & Htr2 & Hp2).
    exists (ev1 ++ ev2). split.
    + rewrite Htr2. cbn [snd] in Htr1. rewrite Htr1, <- app_assoc.
      reflexivity.
    + rewrite pick_app, Hp1, Hp2. reflexivity.
Qed.

(** X13: a run that completes printed one header per epoch, in order:
    [Epoch 1/(n+1)], [Epoch 2/(n+1)], ..., [Epoch n/(n+1)] for
    [n = num_epoch].  The total shown is one more than the number of epochs
    run, so the last header reads [n/(n+1)]. *)
Theorem main_epoch_headers
        (a : Compile.args) (c : config R) (w : world R G P) :
  fst (main ext a c w) = inr tt ->
  exists evs,
    trace (snd (main ext a c w)) = trace w ++ evs
    /\ pick epoch_header evs
       = map (fun k => (Z.of_nat k + 1, num_epoch c + 1))
             (seq 0 (Z.to_nat (num_epoch c))).
Proof.
  intros Hfin.
  destruct (Py.float_eq_zero (Compile.l2 a)) eqn:Hl2.
  - unfold main, bind, lift in Hfin.
    rewrite compile_fn_zero in Hfin by assumption. discriminate.
  - rewrite main_epochs in Hfin |- * by assumption.
    destruct (epochs_headers c _ w Hfin) as (evs & Htr & Hp).
    exists evs. split; [assumption|]. now rewrite Hp, map_map.
Qed.

Lemma run_epoch_store_without_savefig
      (ne bsz : Z) (iv : spec_float) (tr va te : list (image R)) (e : Z) :
  frame (@same_store R G P)
        (run_epoch ext (Config ne bsz iv false tr va te) e).
Proof.
  unfold run_epoch.
  apply (frame_bind (@same_store_trans R G P));
    [apply train_phase_store | intros x1].
  apply (frame_bind (@same_store_trans R G P));
    [apply validate_phase_store | intros x2].
  apply (frame_bind (@same_store_trans R G P));
    [apply test_phase_store | intros x3].
  apply (frame_bind (@same_store_trans R G P));
    [apply print_summary_store | intros x4].
  unfold checkpoint. simpl. apply (frame_ret (@same_store_refl R G P)).
Qed.

(** X14: a whole run without [--savefig], from [compile_fn] to the last
    epoch, writes no file under the model directory: when it ends, by
    completion or by an exception, the artifact store is as it was, and the
    parameters trained exist only in the network. *)
Theorem main_without_savefig_writes_nothing
        (a : Compile.args) (ne bsz : Z) (iv : spec_float)
        (tr va te : list (image R)) (w : world R G P) :
  store (snd (main ext a (Config ne bsz iv false tr va te) w)) = store w.
Proof.
  revert w.
  change (frame (@same_store R G P)
                (main ext a (Config ne bsz iv false tr va te))).
  unfold main.
  apply (frame_bind (@same_store_trans R G P));
    [apply (frame_lift (@same_store_refl R G P)) | intros fns].
  apply (frame_bind (@same_store_trans R G P));
    [apply (frame_lift (@same_store_refl R G P)) | intros es].
  apply (frame_for_each (@same_store_refl R G P) (@same_store_trans R G P)).
  intros [] e. apply run_epoch_store_without_savefig.
Qed.

End PipelineFacts.

(** * A concrete run

    One-pixel images of value 1, a generator without state (the shuffle
    reverses), an undersampler that loses nothing, a network that predicts
    the value 5 for every pixel, and a metric that gives 30 dB to an exact
    image and [psnr_pred] to anything else. *)

Module Demo.

Definition pixel : image Z := [[(1, 0)]].

(** [gauss_ivar = 0.0015], to three bits. *)
Definition ivar : spec_float := S754_finite false 3 (-11).

(** The default of [--gauss_ivar], [0.0015] as a binary64 float. *)
Definition gauss_ivar_default : spec_float :=
  S754_finite false 6917529027641082 (-62).


(** Draws that keep no line. *)
Definition keep_none : unit -> spec_float -> nat -> nat -> bool :=
  fun _ _ _ _ => false.

Definition is_pixel (x : image Z) : bool :=
  match x with
  | [[(1, 0)]] => true
  | _ => false
  end.

(** The collaborators of the examples: the permutation reverses, the
    undersampler returns its input, the network predicts the value 5
    everywhere, and the metric gives 30 to the undersampled image and
    [psnr_pred] to the prediction. *)
Definition ext (psnr_pred : Q) : externals Z unit unit :=
  Externals
    (fun g l => (rev l, g))
    (fun _ _ _ _ => false)
    (fun _ _ _ => false)
    (fun g => g)
    (fun im _ => (im, im))
    (fun p _ _ _ _ => (1%Q, p))
    (fun _ a _ _ _ => (1%Q, map (fun _ => [[[5]]; [[0]]]) a))
    (fun _ y => if is_pixel y then Finite 30 else Finite psnr_pred).

(** A network that reproduces the ground truth exactly, with a metric that
    is [+inf] on two identical images. *)
Definition ext_exact : externals Z unit unit :=
  Externals
    (fun g l => (rev l, g))
    (fun _ _ _ _ => false)
    (fun _ _ _ => false)
    (fun g => g)
    (fun im _ => (im, im))
    (fun p _ _ _ _ => (1%Q, p))
    (fun _ _ _ _ gnd => (0%Q, gnd))
    (fun x y => if is_pixel x && is_pixel y
                then Special PosInf else Finite 30).

Definition w0 : world Z unit unit := World tt tt [] [].

Definition config_of (save : bool) (bsize : Z)
           (ntrain nvalidate ntest : nat) : config Z :=
  Config 10 bsize ivar save (repeat pixel ntrain) (repeat pixel nvalidate)
         (repeat pixel ntest).

Lemma ext_batch_preserving (psnr_pred : Q) :
  batch_preserving (ext psnr_pred).
Proof. split; intros; [reflexivity | apply length_map]. Qed.

Lemma rev_permutes (g : unit) (l : list (image Z)) :
  Permutation l (fst (np_random_permutation (ext 30) g l)).
Proof. apply Permutation_rev. Qed.

End Demo.

Example batches_of_five_by_two :
  fst (iterate_minibatch (fun (g : unit) l => (rev l, g)) tt
                         [1; 2; 3; 4; 5] 2 false)
  = inr [[1; 2]; [3; 4]; [5]].
Proof. reflexivity. Qed.

Example batches_of_five_shuffled :
  fst (iterate_minibatch (fun (g : unit) l => (rev l, g)) tt
                         [1; 2; 3; 4; 5] 2 true)
  = inr [[5; 4]; [3; 2]; [1]].
Proof. reflexivity. Qed.

Example batch_size_zero_raises :
  fst (iterate_minibatch (fun (g : unit) l => (rev l, g)) tt
                         [1; 2; 3] 0 false)
  = inl (Py.ValueError "xrange() arg 3 must not be zero").
Proof. reflexivity. Qed.

(** Sixteen lines, eight forced ones, nothing drawn: the frequencies
    [-4 .. 3] sit at the indices [12 .. 15] and [0 .. 3] of the unshifted
    order. *)
Example centre_lines_unshifted :
  map (fun row => hd 0 row)
      (element_mask (fun (_ : unit) _ _ _ => false) (fun _ _ _ => false)
                    tt Demo.ivar 16 2 false false true 8)
  = [1; 1; 1; 1; 0; 0; 0; 0; 0; 0; 0; 0; 1; 1; 1; 1].
Proof. reflexivity. Qed.

(** Epoch 0 of a run of ten epochs: with [--savefig] the parameters are
    written, without it nothing is. *)
Example epoch_zero_with_savefig :
  store (snd (run_epoch (Demo.ext 30) (Demo.config_of true 2 3 3 3) 0 Demo.w0))
  = [(ParamFile "d2_c2" 0, ParamValues tt)].
Proof. vm_compute. reflexivity. Qed.

Example epoch_zero_without_savefig :
  store (snd (run_epoch (Demo.ext 30) (Demo.config_of false 2 3 3 3) 0 Demo.w0))
  = [].
Proof. vm_compute. reflexivity. Qed.

(** An empty validation split: the training loss is printed, then the
    division of the validation loss raises. *)
Example empty_validation_split :
  run_epoch (Demo.ext 30) (Demo.config_of false 2 0 0 3) 0 Demo.w0
  = (inl Py.ZeroDivisionError,
     World tt tt []
           [ValFn Test (to_lasagne_format [Demo.pixel; Demo.pixel]) 1;
            Psnr (Finite 30) (Finite 30); Psnr (Finite 30) (Finite 30);
            ValFn Test (to_lasagne_format [Demo.pixel]) 1;
            Psnr (Finite 30) (Finite 30);
            Print (EpochHeader 1 11);
            Print (TrainingLoss (PyFloat (0 # 1)))]).
Proof. vm_compute. reflexivity. Qed.

(** ** The theorems at concrete inputs *)

Lemma zero_batch_split_raises_witness :
  1 <= batch_size (Demo.config_of false 2 3 0 3)
  /\ fst (run_epoch (Demo.ext 30) (Demo.config_of false 2 3 0 3) 0 Demo.w0)
     = inl Py.ZeroDivisionError.
Proof.
  split; [simpl; lia|].
  apply (proj2 (@zero_batch_split_raises Z unit unit (Demo.ext 30)
                  (Demo.config_of false 2 3 0 3) 0 Demo.w0
                  ltac:(simpl; lia) (Demo.ext_batch_preserving 30))).
  left. reflexivity.
Defined.

Lemma iterate_minibatch_partitions_witness :
  (exists batches,
      fst (iterate_minibatch (fun (g : unit) (l : list Z) => (rev l, g)) tt
                             [1; 2; 3; 4; 5] 2 true) = inr batches
      /\ Z.of_nat (length batches) = ceil_div 5 2
      /\ (5 mod 2 <> 0 -> Z.of_nat (length (last batches [])) = 5 mod 2)
      /\ Z.of_nat (list_sum (map (@length Z) batches)) = 5)
  /\ exists evs,
      trace (snd (run_epoch (Demo.ext 30) (Demo.config_of false 10 20 20 20)
                            0 Demo.w0)) = trace Demo.w0 ++ evs
      /\ length (pick (@train_gnd Z) evs) = 2%nat.
Proof.
  split.
  - destruct (proj1 (iterate_minibatch_partitions (Demo.ext 30)
                       (Demo.config_of false 10 20 20 20) 0 Demo.w0)
                    Z unit (fun g l => (rev l, g)) tt [1; 2; 3; 4; 5] 2 true
                    (fun _ l => Permutation_rev l) ltac:(lia))
      as (batches & H1 & H2 & _ & H4 & H5).
    exists batches. repeat split; assumption.
  - apply (proj2 (iterate_minibatch_partitions (Demo.ext 30)
                    (Demo.config_of false 10 20 20 20) 0 Demo.w0));
      reflexivity.
Defined.

Lemma minibatch_order_witness :
  (exists batches,
      iterate_minibatch (fun (g : unit) (l : list Z) => (rev l, g)) tt
                        [1; 2; 3; 4; 5] 2 false = (inr batches, tt)
      /\ concat batches = [1; 2; 3; 4; 5])
  /\ exists evs,
      trace (snd (run_epoch (Demo.ext 30) (Demo.config_of false 2 3 3 3)
                            0 Demo.w0)) = trace Demo.w0 ++ evs
      /\ concat (map (@from_lasagne_format Z) (pick (@train_gnd Z) evs))
         = rev (repeat Demo.pixel 3)
      /\ concat (map (@from_lasagne_format Z) (pick (@val_gnd Z Validate) evs))
         = repeat Demo.pixel 3.
Proof.
  split.
  - apply (proj1 (minibatch_order (Demo.ext 30)
                    (Demo.config_of false 2 3 3 3) 0 Demo.w0)
                 Z unit (fun g l => (rev l, g)) tt [1; 2; 3; 4; 5] 2
                 ltac:(lia)).
  - destruct (proj2 (minibatch_order (Demo.ext 30)
                       (Demo.config_of false 2 3 3 3) 0 Demo.w0)
                    ltac:(simpl; lia) Demo.rev_permutes)
      as (evs & H1 & H2 & H3 & _).
    exists evs. repeat split; assumption.
Defined.

Lemma mask_centre_lines_witness :
  low_band 8 (line_freq false 16 13) = true
  /\ nth 1 (nth 13 (nth 0 (fst (cartesian_mask
                                  (fun (_ : unit) _ _ _ => false)
                                  (fun _ _ _ => false) (fun g => g) tt
                                  (1, 16, 2)%nat Demo.ivar false true true 8))
                        []) []) 0 = 1.
Proof.
  split; [reflexivity|].
  apply (proj1 (mask_centre_lines (Demo.ext 30))); try reflexivity; lia.
Defined.

Lemma psnr_divisor_exceeds_count_witness :
  exists evs,
    trace (snd (run_epoch (Demo.ext 30) (Demo.config_of false 2 3 3 3)
                          0 Demo.w0)) = trace Demo.w0 ++ evs
    /\ length (pick (@psnr_term Z) evs) = 3%nat
    /\ 3 < ceil_div 3 2 * 2
    /\ psnr_report 3 (ceil_div 3 2 * 2) BasePSNR
                   (map fst (pick (@psnr_term Z) evs)) evs
    /\ psnr_report 3 (ceil_div 3 2 * 2) TestPSNR
                   (map snd (pick (@psnr_term Z) evs)) evs.
Proof.
  pose proof (@psnr_divisor_exceeds_count Z unit unit (Demo.ext 30)
                (Demo.config_of false 2 3 3 3) 0 Demo.w0
                ltac:(simpl; lia) (Demo.ext_batch_preserving 30)
                ltac:(discriminate) ltac:(discriminate)) as H.
  cbv zeta in H. destruct H as (evs & H1 & H2 & _ & H3 & H4 & H5).
  exists evs. split; [exact H1|]. split; [exact H2|].
  split; [apply H3; discriminate|]. split; [exact H4 | exact H5].
Defined.

(** C10 as stated fails: one test image of value 1, predicted as 5 (a PSNR
    of -12 dB), and [batch_size = 2].  The size of the split is not a
    multiple of the batch size, the epoch prints a test PSNR of [-12/2], and
    the arithmetic mean of the per-image values is [-12]: the printed value
    is not below the mean. *)
Lemma psnr_report_above_mean :
  Z.of_nat (length (test (Demo.config_of false 2 1 1 1)))
  mod batch_size (Demo.config_of false 2 1 1 1) <> 0
  /\ In (Print (TestPSNR (PyFloat (-12 # 2))))
        (trace (snd (run_epoch (Demo.ext (-12 # 1))
                               (Demo.config_of false 2 1 1 1) 0 Demo.w0)))
  /\ map snd (pick (@psnr_term Z)
                   (trace (snd (run_epoch (Demo.ext (-12 # 1))
                                          (Demo.config_of false 2 1 1 1)
                                          0 Demo.w0))))
     = [Finite (-12 # 1)]
  /\ ~ ((-12 # 2) < mean [(-12 # 1)])%Q.
Proof.
  split; [discriminate|]. split; [|split].
  - vm_compute. tauto.
  - vm_compute. reflexivity.
  - intros H. vm_compute in H. discriminate H.
Qed.

(** A prediction equal to the ground truth has a PSNR of [+inf]: with one
    test image reproduced exactly and [batch_size = 2] the epoch prints
    [inf] as test PSNR, which is also the mean of the per-image values. *)
Example psnr_report_infinite :
  In (Print (TestPSNR (PySpecial PosInf)))
     (trace (snd (run_epoch Demo.ext_exact (Demo.config_of false 2 1 1 1)
                            0 Demo.w0)))
  /\ map snd (pick (@psnr_term Z)
                   (trace (snd (run_epoch Demo.ext_exact
                                          (Demo.config_of false 2 1 1 1)
                                          0 Demo.w0))))
     = [Special PosInf]
  /\ py_truediv (np_sum [Special PosInf]) 1 = inr (PySpecial PosInf).
Proof.
  split; [|split].
  - vm_compute. tauto.
  - vm_compute. reflexivity.
  - reflexivity.
Qed.


(** When the draws keep no line, only the 8 centre lines of each mask are
    set and the rate is 16. *)
Example acceleration_rate_sixteen :
  (acceleration_rate Demo.keep_none (fun _ _ _ => false) (fun g => g) tt
                     Demo.gauss_ivar_default false == 16)%Q.
Proof. vm_compute. reflexivity. Qed.

(** * Further properties of the script *)

(** ** [iterate_minibatch]: where each element goes, and bad batch sizes *)

Section MinibatchPlacement.

Variables A G : Type.
Variable perm : G -> list A -> list A * G.

(** X1: element [k] of the list the batches are cut from (the input, or its
    permutation when shuffling) is element [k mod B] of batch [k / B]. *)
Theorem iterate_minibatch_position (g : G) (data : list A) (bsize : Z)
        (shuffle : bool) (k : nat) :
  1 <= bsize ->
  (forall g' l, length (fst (perm g' l)) = length l) ->
  (k < length data)%nat ->
  exists batches,
    fst (iterate_minibatch perm g data bsize shuffle) = inr batches
    /\ nth_error (nth (k / Z.to_nat bsize) batches []) (k mod Z.to_nat bsize)
       = nth_error (fst (if shuffle then perm g data else (data, g))) k.
Proof.
  intros Hb Hlen Hk.
  rewrite iterate_minibatch_closed by assumption.
  eexists. split; [reflexivity|].
  fold (drawn perm g data shuffle).
  set (l := fst (drawn perm g data shuffle)).
  set (b := Z.to_nat bsize).
  assert (Hb0 : (0 < b)%nat) by (subst b; lia).
  pose proof (length_batches_of (length data) l Hb) as Hcount.
  pose proof (@ceil_div_bounds (Z.of_nat (length data)) bsize ltac:(lia))
    as Hc.
  pose proof (Nat.div_mod_eq k b) as Hdm.
  pose proof (Nat.mod_upper_bound k b ltac:(lia)) as Hr.
  assert (Hq : (k / b < length (batches_of (length data) l bsize))%nat).
  { apply Nat2Z.inj_lt. rewrite Hcount. subst b. nia. }
  rewrite nth_batches_of by assumption. fold b.
  rewrite nth_error_firstn.
  destruct (Nat.ltb_spec (k mod b) b) as [_|Habs]; [|lia].
  rewrite nth_error_skipn. f_equal. lia.
Qed.

(** X2: for a batch size [B >= 1] no batch is empty and none holds more
    than [B] elements; an empty input yields no batch. *)
Theorem iterate_minibatch_batch_sizes (g : G) (data : list A) (bsize : Z)
        (shuffle : bool) :
  1 <= bsize ->
  (forall g' l, length (fst (perm g' l)) = length l) ->
  exists batches,
    fst (iterate_minibatch perm g data bsize shuffle) = inr batches
    /\ Forall (fun b => (1 <= length b)%nat /\ Z.of_nat (length b) <= bsize)
              batches
    /\ (data = [] -> batches = []).
Proof.
  intros Hb Hlen.
  rewrite iterate_minibatch_closed by assumption.
  eexists. split; [reflexivity|]. split.
  - assert (Hl : length (fst (drawn perm g data shuffle)) = length data).
    { unfold drawn. destruct shuffle; [apply Hlen | reflexivity]. }
    simpl fst. rewrite <- Hl.
    set (l := fst (drawn perm g data shuffle)).
    pose proof (batches_nonempty l Hb) as Hne.
    apply Forall_forall. intros x Hx. split.
    + rewrite Forall_forall in Hne. specialize (Hne x Hx).
      destruct x; [congruence | simpl; lia].
    + unfold batches_of in Hx. apply in_map_iff in Hx.
      destruct Hx as [j [<- _]]. rewrite length_firstn. lia.
  - intros ->. simpl length. now apply batches_of_zero.
Qed.

(** X3: a batch size of zero raises [ValueError] when the loop starts, after
    the permutation has been drawn; a negative batch size raises nothing
    and yields no batch at all. *)
Theorem iterate_minibatch_bad_batch_size (g : G) (data : list A)
        (shuffle : bool) :
  iterate_minibatch perm g data 0 shuffle
  = (inl (Py.ValueError "xrange() arg 3 must not be zero"),
     snd (if shuffle then perm g data else (data, g)))
  /\ (forall bsize,
        bsize < 0 ->
        iterate_minibatch perm g data bsize shuffle
        = (inr [], snd (if shuffle then perm g data else (data, g)))).
Proof.
  split.
  - unfold iterate_minibatch.
    now destruct (if shuffle then perm g data else (data, g)).
  - intros bsize Hneg. unfold iterate_minibatch, Py.xrange.
    destruct (if shuffle then perm g data else (data, g)) as [data' g'].
    destruct (Z.eqb_spec bsize 0); [lia|].
    destruct (Z.ltb_spec 0 bsize); [lia|].
    replace (Z.to_nat (0 - Z.of_nat (length data))) with 0%nat by lia.
    reflexivity.
Qed.

End MinibatchPlacement.

(** ** [create_dummy_data]: the three splits

    The data set is one 4-D array of shape [(nx, ny, nz, nc)].  A numpy array
    is modelled by its shape and its entries by index; [np.transpose] and
    [reshape] follow numpy's C order. *)

Module Np.

Record array4 (X : Type) : Type := Array4 {
  shape4 : nat * nat * nat * nat;
  at4 : nat -> nat -> nat -> nat -> X
}.

Record array3 (X : Type) : Type := Array3 {
  shape3 : nat * nat * nat;
  at3 : nat -> nat -> nat -> X
}.

(** Component [n] of a 4-tuple. *)
Definition get4 (X : Type) (t : X * X * X * X) (n : nat) : X :=
  let '(a, b, c, d) := t in
  match n with
  | 0%nat => a
  | 1%nat => b
  | 2%nat => c
  | _ => d
  end.

(** [axes] names each of the four axes once. *)
Definition is_permutation4 (axes : nat * nat * nat * nat) : bool :=
  let '(p0, p1, p2, p3) := axes in
  forallb (fun n => existsb (Nat.eqb n) [p0; p1; p2; p3])
          [0; 1; 2; 3]%nat
  && forallb (fun p => (p <? 4)%nat) [p0; p1; p2; p3].

(** [np.transpose(a, axes)]: axis [m] of the result is axis [axes[m]] of
    [a]. *)
Definition transpose (X : Type) (a : array4 X) (axes : nat * nat * nat * nat)
  : Py.result (array4 X) :=
  if is_permutation4 axes then
    let '(p0, p1, p2, p3) := axes in
    inr (Array4
           (get4 (shape4 a) p0, get4 (shape4 a) p1,
            get4 (shape4 a) p2, get4 (shape4 a) p3)
           (fun i0 i1 i2 i3 =>
              let idx n :=
                if (p0 =? n)%nat then i0
                else if (p1 =? n)%nat then i1
                else if (p2 =? n)%nat then i2
                else i3 in
              at4 a (idx 0%nat) (idx 1%nat) (idx 2%nat) (idx 3%nat)))
  else inl (Py.ValueError "axes don't match array").

(** [a.reshape((-1, p, q))]: the entries in C order, cut into [p * q]
    blocks.  The unknown size cannot be inferred when [p * q] is zero or
    does not divide the size of [a]. *)
Definition reshape (X : Type) (a : array4 X) (p q : nat)
  : Py.result (array3 X) :=
  let '(n0, n1, n2, n3) := shape4 a in
  let size := (n0 * n1 * n2 * n3)%nat in
  if ((p * q =? 0) || negb (size mod (p * q) =? 0))%nat
  then inl (Py.ValueError "cannot reshape array")
  else
    inr (Array3
           (size / (p * q), p, q)%nat
           (fun i j k =>
              let f := ((i * p + j) * q + k)%nat in
              at4 a (f / (n1 * n2 * n3))%nat ((f / (n2 * n3)) mod n1)%nat
                  ((f / n3) mod n2)%nat (f mod n3)%nat)).

(** The 2-D arrays along the first axis, as the loops of the script see
    them. *)
Definition to_list (X : Type) (a : array3 X) : list (list (list X)) :=
  let '(n, p, q) := shape3 a in
  map (fun i => map (fun j => map (fun k => at3 a i j k) (seq 0 q))
                    (seq 0 p))
      (seq 0 n).

End Np.

(** [data] is the array [loadmat(...)['xn']]. *)
Definition create_dummy_data (X : Type) (data : Np.array4 X)
  : Py.result (Np.array3 X * Np.array3 X * Np.array3 X) :=
  let '(nx, ny, nz, nc) := Np.shape4 data in
  match Np.transpose data (3, 0, 1, 2)%nat with
  | inl e => inl e
  | inr t1 =>
    match Np.reshape t1 ny nz with
    | inl e => inl e
    | inr train =>
      match Np.transpose data (3, 1, 0, 2)%nat with
      | inl e => inl e
      | inr t2 =>
        match Np.reshape t2 nx nz with
        | inl e => inl e
        | inr validate =>
          match Np.transpose data (3, 2, 0, 1)%nat with
          | inl e => inl e
          | inr t3 =>
            match Np.reshape t3 nx ny with
            | inl e => inl e
            | inr test => inr (train, validate, test)
            end
          end
        end
      end
    end
  end.

Section DummyDataFacts.

Variable X : Type.

Local Open Scope nat_scope.

Lemma unravel_merged (n1 p q c x y z : nat) :
  x < n1 -> y < p -> z < q ->
  let f := ((c * n1 + x) * p + y) * q + z in
  f / (n1 * p * q) = c
  /\ (f / (p * q)) mod n1 = x
  /\ (f / q) mod p = y
  /\ f mod q = z.
Proof.
  intros Hx Hy Hz f.
  assert (Hyz : y * q + z < p * q) by nia.
  assert (Hxy : x * p + y < n1 * p) by nia.
  assert (Hxyz : (x * p + y) * q + z < n1 * p * q) by nia.
  assert (H3 : f / q = (c * n1 + x) * p + y).
  { symmetry. apply Nat.div_unique with (r := z);
      [assumption | subst f; nia]. }
  assert (H2 : f / (p * q) = c * n1 + x).
  { symmetry. apply Nat.div_unique with (r := y * q + z);
      [assumption | subst f; nia]. }
  assert (H1 : f / (n1 * p * q) = c).
  { symmetry. apply Nat.div_unique with (r := (x * p + y) * q + z);
      [assumption | subst f; nia]. }
  repeat split.
  - exact H1.
  - rewrite H2. symmetry. apply Nat.mod_unique with (q := c);
      [assumption | nia].
  - rewrite H3. symmetry.
    apply Nat.mod_unique with (q := c * n1 + x); [assumption | nia].
  - symmetry. apply Nat.mod_unique with (q := (c * n1 + x) * p + y);
      [assumption | subst f; nia].
Qed.

(** Reshaping to the last two axes of the array itself merges its first two
    axes. *)
Lemma reshape_merge (a : Np.array4 X) (n0 n1 p q : nat) :
  Np.shape4 a = (n0, n1, p, q) -> p <> 0 -> q <> 0 ->
  exists r,
    Np.reshape a p q = inr r
    /\ Np.shape3 r = (n0 * n1, p, q)
    /\ (forall c x y z, x < n1 -> y < p -> z < q ->
                        Np.at3 r (c * n1 + x) y z = Np.at4 a c x y z).
Proof.
  intros Hshape Hp Hq. unfold Np.reshape. rewrite Hshape.
  assert (Hpq : p * q <> 0) by nia.
  replace (n0 * n1 * p * q) with (n0 * n1 * (p * q)) by lia.
  rewrite Nat.Div0.mod_mul, Nat.div_mul by assumption.
  destruct (Nat.eqb_spec (p * q) 0) as [E|_]; [contradiction|].
  simpl. eexists. split; [reflexivity|]. split; [reflexivity|].
  intros c x y z Hx Hy Hz. cbn [Np.at3].
  destruct (unravel_merged c Hx Hy Hz) as (-> & -> & -> & ->).
  reflexivity.
Qed.

Lemma reshape_empty_block (a : Np.array4 X) (p q : nat) :
  p = 0 \/ q = 0 ->
  Np.reshape a p q = inl (Py.ValueError "cannot reshape array").
Proof.
  intros H. unfold Np.reshape.
  destruct (Np.shape4 a) as [[[n0 n1] n2] n3].
  replace (p * q =? 0) with true; [reflexivity|].
  symmetry. apply Nat.eqb_eq. nia.
Qed.

(** X4: when no spatial dimension is zero, [create_dummy_data] returns
    [nc * nx] training images of [ny] by [nz], [nc * ny] validation images
    of [nx] by [nz] and [nc * nz] test images of [nx] by [ny]; when one is
    zero, the reshapes cannot infer their first dimension and it raises
    [ValueError]. *)
Theorem create_dummy_data_shapes (data : Np.array4 X) (nx ny nz nc : nat) :
  Np.shape4 data = (nx, ny, nz, nc) ->
  (nx <> 0 /\ ny <> 0 /\ nz <> 0 ->
   exists train validate test,
     create_dummy_data data = inr (train, validate, test)
     /\ Np.shape3 train = (nc * nx, ny, nz)
     /\ Np.shape3 validate = (nc * ny, nx, nz)
     /\ Np.shape3 test = (nc * nz, nx, ny)
     /\ length (Np.to_list train) = nc * nx
     /\ length (Np.to_list validate) = nc * ny
     /\ length (Np.to_list test) = nc * nz)
  /\ (nx = 0 \/ ny = 0 \/ nz = 0 ->
      create_dummy_data data = inl (Py.ValueError "cannot reshape array")).
Proof.
  intros Hshape. destruct data as [sh f]. simpl in Hshape. subst sh.
  split.
  - intros (Hx & Hy & Hz).
    unfold create_dummy_data, Np.transpose. cbn -[Np.reshape].
    destruct (reshape_merge (Np.Array4 (nc, nx, ny, nz)
                (fun i0 i1 i2 i3 => f i1 i2 i3 i0)) eq_refl Hy Hz)
      as (train & -> & S1 & _).
    destruct (reshape_merge (Np.Array4 (nc, ny, nx, nz)
                (fun i0 i1 i2 i3 => f i2 i1 i3 i0)) eq_refl Hx Hz)
      as (validate & -> & S2 & _).
    destruct (reshape_merge (Np.Array4 (nc, nz, nx, ny)
                (fun i0 i1 i2 i3 => f i2 i3 i1 i0)) eq_refl Hx Hy)
      as (test & -> & S3 & _).
    exists train, validate, test.
    unfold Np.to_list. rewrite S1, S2, S3, !length_map, !length_seq.
    repeat split; reflexivity.
  - intros Hzero.
    unfold create_dummy_data, Np.transpose. cbn -[Np.reshape].
    destruct (Nat.eq_dec ny 0) as [Ey|Ny];
      [rewrite reshape_empty_block by tauto; reflexivity|].
    destruct (Nat.eq_dec nz 0) as [Ez|Nz];
      [rewrite reshape_empty_block by tauto; reflexivity|].
    destruct (reshape_merge (Np.Array4 (nc, nx, ny, nz)
                (fun i0 i1 i2 i3 => f i1 i2 i3 i0)) eq_refl Ny Nz)
      as (train & -> & _).
    rewrite reshape_empty_block by (left; tauto). reflexivity.
Qed.

(** X5: the three splits are three slicings of the same volume.  The voxel
    [(x, y, z)] of coil [c] is the entry [(y, z)] of training image
    [c * nx + x], the entry [(x, z)] of validation image [c * ny + y] and
    the entry [(x, y)] of test image [c * nz + z]: no voxel is held out of
    any split. *)
Theorem create_dummy_data_same_voxels
        (data : Np.array4 X) (train validate test : Np.array3 X)
        (nx ny nz nc x y z c : nat) :
  Np.shape4 data = (nx, ny, nz, nc) ->
  create_dummy_data data = inr (train, validate, test) ->
  x < nx -> y < ny -> z < nz -> c < nc ->
  Np.at3 train (c * nx + x) y z = Np.at4 data x y z c
  /\ Np.at3 validate (c * ny + y) x z = Np.at4 data x y z c
  /\ Np.at3 test (c * nz + z) x y = Np.at4 data x y z c.
Proof.
  intros Hshape Hrun Hx Hy Hz Hc.
  destruct data as [sh f]. simpl in Hshape. subst sh.
  unfold create_dummy_data, Np.transpose in Hrun. cbn -[Np.reshape] in Hrun.
  destruct (reshape_merge (Np.Array4 (nc, nx, ny, nz)
              (fun i0 i1 i2 i3 => f i1 i2 i3 i0)) eq_refl
              ltac:(lia) ltac:(lia)) as (r1 & E1 & _ & A1).
  destruct (reshape_merge (Np.Array4 (nc, ny, nx, nz)
              (fun i0 i1 i2 i3 => f i2 i1 i3 i0)) eq_refl
              ltac:(lia) ltac:(lia)) as (r2 & E2 & _ & A2).
  destruct (reshape_merge (Np.Array4 (nc, nz, nx, ny)
              (fun i0 i1 i2 i3 => f i2 i3 i1 i0)) eq_refl
              ltac:(lia) ltac:(lia)) as (r3 & E3 & _ & A3).
  rewrite E1, E2, E3 in Hrun. injection Hrun as <- <- <-.
  rewrite A1, A2, A3 by assumption. repeat split; reflexivity.
Qed.

End DummyDataFacts.

(** ** The further properties at concrete inputs *)

Module Demo2.

(** A volume of 2 by 3 by 4 voxels and one coil; each voxel holds its own
    coordinates. *)
Definition volume : Np.array4 (nat * nat * nat * nat) :=
  Np.Array4 (2, 3, 4, 1)%nat (fun x y z c => (x, y, z, c)).

(** [lr = 2^-10], [l2 = 2^-20]. *)
Definition args : Compile.args :=
  Compile.Args (S754_finite false 1 (-10)) (S754_finite false 1 (-20)).

(** The same with [l2 = 0]. *)
Definition args_no_l2 : Compile.args :=
  Compile.Args (S754_finite false 1 (-10)) (S754_zero false).

End Demo2.

Example dummy_data_train_image :
  match create_dummy_data Demo2.volume with
  | inr (train, _, _) =>
      nth 1%nat (Np.to_list train) []
      = [[(1, 0, 0, 0); (1, 0, 1, 0); (1, 0, 2, 0); (1, 0, 3, 0)];
         [(1, 1, 0, 0); (1, 1, 1, 0); (1, 1, 2, 0); (1, 1, 3, 0)];
         [(1, 2, 0, 0); (1, 2, 1, 0); (1, 2, 2, 0); (1, 2, 3, 0)]]%nat
  | inl _ => False
  end.
Proof. vm_compute. reflexivity. Qed.

Lemma iterate_minibatch_position_witness :
  exists batches,
    fst (iterate_minibatch (fun (g : unit) (l : list Z) => (rev l, g)) tt
                           [1; 2; 3; 4; 5] 2 true) = inr batches
    /\ nth_error (nth (3 / Z.to_nat 2) batches []) (3 mod Z.to_nat 2)
       = nth_error (rev [1; 2; 3; 4; 5]) 3.
Proof.
  apply (@iterate_minibatch_position Z unit (fun g l => (rev l, g)) tt
           [1; 2; 3; 4; 5] 2 true 3%nat ltac:(lia)
           (fun _ l => length_rev l) ltac:(simpl; lia)).
Defined.

Lemma iterate_minibatch_batch_sizes_witness :
  (exists batches,
     fst (iterate_minibatch (fun (g : unit) (l : list Z) => (rev l, g)) tt
                            [1; 2; 3; 4; 5] 2 false) = inr batches
     /\ Forall (fun b => (1 <= length b)%nat /\ Z.of_nat (length b) <= 2)
               batches)
  /\ fst (iterate_minibatch (fun (g : unit) (l : list Z) => (rev l, g)) tt
                            [] 2 true) = inr [].
Proof.
  split.
  - destruct (@iterate_minibatch_batch_sizes Z unit (fun g l => (rev l, g))
                tt [1; 2; 3; 4; 5] 2 false ltac:(lia)
                (fun _ l => length_rev l)) as (batches & H1 & H2 & _).
    exists batches. split; assumption.
  - destruct (@iterate_minibatch_batch_sizes Z unit (fun g l => (rev l, g))
                tt [] 2 true ltac:(lia)
                (fun _ l => length_rev l)) as (batches & H1 & _ & H3).
    rewrite H1, (H3 eq_refl). reflexivity.
Defined.

Lemma iterate_minibatch_bad_batch_size_witness :
  iterate_minibatch (fun (g : unit) (l : list Z) => (rev l, g)) tt
                    [1; 2; 3] (-2) true
  = (inr [], tt).
Proof.
  apply (proj2 (@iterate_minibatch_bad_batch_size Z unit
                  (fun g l => (rev l, g)) tt [1; 2; 3] true) (-2)).
  lia.
Defined.

Lemma create_dummy_data_shapes_witness :
  exists train validate test,
    create_dummy_data Demo2.volume = inr (train, validate, test)
    /\ Np.shape3 train = (1 * 2, 3, 4)%nat
    /\ Np.shape3 validate = (1 * 3, 2, 4)%nat
    /\ Np.shape3 test = (1 * 4, 2, 3)%nat.
Proof.
  destruct (proj1 (@create_dummy_data_shapes _ Demo2.volume 2 3 4 1 eq_refl))
    as (train & validate & test & H & S1 & S2 & S3 & _).
  - repeat split; discriminate.
  - exists train, validate, test. repeat split; assumption.
Defined.

Lemma create_dummy_data_same_voxels_witness :
  match create_dummy_data Demo2.volume with
  | inr (train, validate, test) =>
      Np.at3 train (0 * 2 + 1) 2 3 = (1, 2, 3, 0)%nat
      /\ Np.at3 validate (0 * 3 + 2) 1 3 = (1, 2, 3, 0)%nat
      /\ Np.at3 test (0 * 4 + 3) 1 2 = (1, 2, 3, 0)%nat
  | inl _ => False
  end.
Proof.
  destruct (create_dummy_data Demo2.volume) as [x|[[train validate] test]]
    eqn:Hrun.
  - vm_compute in Hrun. discriminate Hrun.
  - apply (@create_dummy_data_same_voxels _ Demo2.volume train validate test
             2 3 4 1 1 2 3 0 eq_refl Hrun); lia.
Defined.

Lemma run_epoch_bad_batch_size_witness :
  fst (run_epoch (Demo.ext 30) (Demo.config_of false 0 3 3 3) 0 Demo.w0)
  = inl (Py.ValueError "xrange() arg 3 must not be zero")
  /\ fst (run_epoch (Demo.ext 30) (Demo.config_of false (-1) 3 3 3) 0 Demo.w0)
     = inl Py.ZeroDivisionError.
Proof.
  split.
  - rewrite (proj1 (run_epoch_bad_batch_size (Demo.ext 30)
                      (Demo.config_of false 0 3 3 3) 0 Demo.w0) eq_refl).
    reflexivity.
  - rewrite (proj2 (run_epoch_bad_batch_size (Demo.ext 30)
                      (Demo.config_of false (-1) 3 3 3) 0 Demo.w0)
                   ltac:(simpl; lia)).
    reflexivity.
Defined.

Lemma epoch_network_calls_witness :
  exists evs,
    trace (snd (run_epoch (Demo.ext 30) (Demo.config_of false 2 3 5 7)
                          0 Demo.w0)) = trace Demo.w0 ++ evs
    /\ Z.of_nat (length (pick (@train_gnd Z) evs)) = ceil_div 3 2
    /\ Z.of_nat (length (pick (@val_gnd Z Validate) evs)) = ceil_div 5 2.
Proof.
  destruct (@epoch_network_calls Z unit unit (Demo.ext 30)
              (Demo.config_of false 2 3 5 7) 0 Demo.w0 ltac:(simpl; lia))
    as (evs & H1 & H2 & H3 & _).
  exists evs. repeat split; assumption.
Defined.

Lemma losses_are_batch_means_witness :
  exists evs,
    trace (snd (run_epoch (Demo.ext 30) (Demo.config_of false 2 3 3 3)
                          0 Demo.w0)) = trace Demo.w0 ++ evs
    /\ In (Print (TrainingLoss
                    (PyFloat (mean (pick (@train_loss Z) evs))))) evs.
Proof.
  destruct (@losses_are_batch_means Z unit unit (Demo.ext 30)
              (Demo.config_of false 2 3 3 3) 0 Demo.w0
              ltac:(simpl; lia) (Demo.ext_batch_preserving 30)
              ltac:(discriminate) ltac:(discriminate) ltac:(discriminate))
    as (evs & H1 & H2 & _).
  exists evs. split; assumption.
Defined.

Lemma vis_every_fifth_batch_witness :
  match test_phase (Demo.ext 30) (Demo.config_of true 2 3 3 10) Demo.w0 with
  | (inr te, _) => Z.of_nat (length (vis te)) = 1
  | (inl _, _) => False
  end.
Proof.
  destruct (test_phase (Demo.ext 30) (Demo.config_of true 2 3 3 10) Demo.w0)
    as [[x|te] w'] eqn:Hrun.
  - vm_compute in Hrun. discriminate Hrun.
  - rewrite (@vis_every_fifth_batch Z unit unit (Demo.ext 30)
               (Demo.config_of true 2 3 3 10) te Demo.w0 w'
               ltac:(simpl; lia) Hrun).
    reflexivity.
Defined.

Lemma epoch_saves_trained_parameters_witness :
  exists files,
    store (snd (run_epoch (Demo.ext 30) (Demo.config_of true 2 3 3 3)
                          0 Demo.w0))
    = store Demo.w0 ++ files
        ++ [(ParamFile model_name 0,
             ParamValues
               (net (snd (train_phase (Demo.ext 30)
                                      (Demo.config_of true 2 3 3 3)
                                      Demo.w0))))].
Proof.
  apply (proj2 (@epoch_saves_trained_parameters Z unit unit (Demo.ext 30)
                  (Demo.config_of true 2 3 3 3) 0 Demo.w0)).
  - reflexivity.
  - left. reflexivity.
  - vm_compute. reflexivity.
Defined.

Lemma main_before_first_epoch_witness :
  main (Demo.ext 30) Demo2.args_no_l2 (Demo.config_of false 2 3 3 3) Demo.w0
  = (inl (Py.UnboundLocalError "loss"), Demo.w0)
  /\ main (Demo.ext 30) Demo2.args (Config 0 2 Demo.ivar false [] [] [])
          Demo.w0
     = (inr tt, Demo.w0).
Proof.
  split.
  - apply (proj1 (@main_before_first_epoch Z unit unit (Demo.ext 30)
                    Demo2.args_no_l2 (Demo.config_of false 2 3 3 3)
                    Demo.w0)).
    reflexivity.
  - apply (proj2 (@main_before_first_epoch Z unit unit (Demo.ext 30)
                    Demo2.args (Config 0 2 Demo.ivar false [] [] [])
                    Demo.w0)).
    + reflexivity.
    + simpl. lia.
Defined.

Lemma main_epoch_headers_witness :
  exists evs,
    trace (snd (main (Demo.ext 30) Demo2.args (Demo.config_of false 2 3 3 3)
                     Demo.w0)) = trace Demo.w0 ++ evs
    /\ pick (@epoch_header Z) evs
       = [(1, 11); (2, 11); (3, 11); (4, 11); (5, 11);
          (6, 11); (7, 11); (8, 11); (9, 11); (10, 11)].
Proof.
  apply (@main_epoch_headers Z unit unit (Demo.ext 30) Demo2.args
           (Demo.config_of false 2 3 3 3) Demo.w0).
  vm_compute. reflexivity.
Defined.
